(** * SpyMap: a shallow embedding of [maps_scraper.py] and of its call site
      in [main.py]

    The development follows the Python module function by function:

    - [geocode_location], [url_nearby], [url_details], [fetch_json],
      [scrape_site_emails] and [collect_leads] of [maps_scraper.py];
    - the expression that computes [center] in
      [_blocking_scraping_and_file_io] of [main.py] ([resolve_center]), and
      that function up to the rows it returns;
    - the conversation of [main.py]: [calculate_price], [start],
      [handle_message], [show_filter_menu], [handle_set_filter] and
      [handle_keywords_done], as functions on [context.user_data] (module
      [Bot]).  The calls to the Telegram API are taken to succeed and are
      left out; what [handle_message] calls on the text of a message
      ([strip], [isdigit], [int]) are the fields of a class, [Texts].

    The network, the random generator and the Python library functions the
    module calls ([float], [str], [urllib.parse.urljoin],
    [urllib.parse.urlencode]) are the fields of a [Runtime]; every theorem
    holds for every runtime.  Each computation returns, next to its result,
    the list of the requests and delays it performed, in order.

    What the model takes for granted:

    - numbers: a finite [float] is the rational it denotes, and arithmetic
      on prices is exact (rounding to binary64 is outside the model).  The
      infinities, NaN and the [OverflowError] of [float] on a large integer
      are in the model, for the rating;
    - text: strings are byte strings, and the pages scraped are ASCII text:
      [str.lower] and the character classes of [EMAIL_PAT] are the ASCII
      ones (on other text [re.I] and [str.lower] do more);
    - [urljoin] returns: a URL that makes [urllib.parse.urljoin] raise
      [ValueError] (an unclosed bracket in the host, say), which
      [scrape_site_emails] would raise in turn before its first request, is
      outside the model. *)

From Stdlib Require Import QArith Qround Lqa Ascii String.
From stdpp Require Import base option list sorting gmap strings pretty.

Set Default Proof Using "Type".
Open Scope string_scope.
Open Scope list_scope.

(** ** Strings *)

Module Str.

Definition to_list (s : string) : list ascii := list_ascii_of_string s.
Definition of_list (l : list ascii) : string := string_of_list_ascii l.

(** [sep.join(l)] *)
Fixpoint join (sep : string) (l : list string) : string :=
  match l with
  | [] => ""
  | [s] => s
  | s :: l' => s +:+ sep +:+ join sep l'
  end.

Definition between (lo hi : nat) (c : ascii) : bool :=
  (lo <=? nat_of_ascii c)%nat && (nat_of_ascii c <=? hi)%nat.

Definition is_upper : ascii → bool := between 65 90.
Definition is_lower : ascii → bool := between 97 122.
Definition is_alpha (c : ascii) : bool := is_upper c || is_lower c.
Definition is_digit : ascii → bool := between 48 57.

Definition lower_ascii (c : ascii) : ascii :=
  if is_upper c then ascii_of_nat (nat_of_ascii c + 32) else c.

(** [s.lower()] *)
Fixpoint lower (s : string) : string :=
  match s with
  | EmptyString => EmptyString
  | String c s' => String (lower_ascii c) (lower s')
  end.

(** [c in s], for a one-character string [c] *)
Fixpoint contains (c : ascii) (s : string) : bool :=
  match s with
  | EmptyString => false
  | String c' s' => if decide (c = c') then true else contains c s'
  end.

(** truth value of a string: [bool(s)] *)
Definition truthy (s : string) : bool :=
  match s with EmptyString => false | _ => true end.

(** the one-character string of the decimal digit [d] *)
Definition digit (d : nat) : string := String (ascii_of_nat (48 + d)) "".

(** [sorted(l)] on strings *)
Definition sorted (l : list string) : list string := merge_sort String.le l.

End Str.

(** ** [EMAIL_PAT]

    [re.compile(r"[A-Z0-9._%+-]+@[A-Z0-9.-]+\.[A-Z]{2,}", re.I)] and its
    [findall], as the backtracking matcher executes them. *)

Module EmailPat.

Definition one_of (s : string) (c : ascii) : bool := Str.contains c s.

(** [[A-Z0-9._%+-]], ignoring case *)
Definition local_char (c : ascii) : bool :=
  Str.is_alpha c || Str.is_digit c || one_of "._%+-" c.

(** [[A-Z0-9.-]], ignoring case *)
Definition domain_char (c : ascii) : bool :=
  Str.is_alpha c || Str.is_digit c || one_of ".-" c.

(** the longest prefix of [l] in the class [p], and what follows it *)
Fixpoint span (p : ascii → bool) (l : list ascii) : list ascii * list ascii :=
  match l with
  | [] => ([], [])
  | c :: l' =>
      if p c then let '(a, b) := span p l' in (c :: a, b) else ([], l)
  end.

(** [\.[A-Z]{2,}] at the head of [l]: the dot and the longest run of letters
    after it, when that run has two letters at least *)
Definition dot_tld (l : list ascii) : option (list ascii * list ascii) :=
  match l with
  | c :: l' =>
      if decide (c = "."%char) then
        let '(tld, rest) := span Str.is_alpha l' in
        if (2 <=? length tld)%nat then Some (c :: tld, rest) else None
      else None
  | [] => None
  end.

(** [[A-Z0-9.-]*\.[A-Z]{2,}] inside a run [l] of domain characters.  The
    quantifier is greedy: the matcher first lets it take as much as it can
    and gives characters back one at a time, so the dot that is kept is the
    last one of the run that two letters follow. *)
Fixpoint domain_tail (l : list ascii) : option (list ascii * list ascii) :=
  match l with
  | [] => None
  | c :: l' =>
      match domain_tail l' with
      | Some (m, rest) => Some (c :: m, rest)
      | None => dot_tld l
      end
  end.

(** one attempt of the whole pattern at the head of [l]: the match and the
    text after it *)
Definition match_here (l : list ascii) : option (list ascii * list ascii) :=
  let '(loc, after_loc) := span local_char l in
  match loc, after_loc with
  | _ :: _, at_sign :: after_at =>
      if decide (at_sign = "@"%char) then
        let '(dom, after_dom) := span domain_char after_at in
        match dom with
        | d :: dom' =>
            match domain_tail dom' with
            | Some (m, rest) =>
                Some ((loc ++ at_sign :: d :: m)%list, (rest ++ after_dom)%list)
            | None => None
            end
        | [] => None
        end
      else None
  | _, _ => None
  end.

(** the scan of [findall]: leftmost matches, not overlapping.  Every step
    consumes a character at least, so [length l] steps are enough. *)
Fixpoint scan (steps : nat) (l : list ascii) : list string :=
  match steps, l with
  | S n, c :: l' =>
      match match_here l with
      | Some (m, rest) => Str.of_list m :: scan n rest
      | None => scan n l'
      end
  | _, _ => []
  end.

Definition findall (blob : string) : list string :=
  let l := Str.to_list blob in scan (length l) l.

End EmailPat.

(** ** Data exchanged with the providers

    The records follow the keys the module reads from the parsed JSON bodies;
    a key read with [.get] is an [option], absent when the body lacks it.
    The entries are typed as the providers document them: a status, a
    token, a name or a URL is a string, and only the rating, which [float]
    and [str] inspect, is an arbitrary value. *)

(** A Python [float]: a finite number, an infinity or a NaN. *)
Inductive pyfloat :=
| Finite (q : Q)
| Infinity (negative : bool)
| NaN.

(** A parsed JSON value as [float] and [str] see it.  [json.loads] reads the
    literals [NaN], [Infinity] and [-Infinity], and reads a number too large
    for a [float], such as [1e999], as an infinity; an integer is read
    exactly, whatever its size. *)
Inductive pyval :=
| PyNone
| PyBool (b : bool)
| PyInt (z : Z)
| PyFloat (q : Q)                (* a finite float *)
| PyInfinity (negative : bool)
| PyNaN
| PyStr (s : string)
| PyOther.   (* a list or a dict *)

(** An entry of ["results"] in a nearby-search body. *)
Record place := Place { place_id : option string }.

(** The body of a nearby-search response. *)
Record nearby := Nearby {
  status : option string;
  error_message : option string;
  results : list place;              (* [data.get("results", [])] *)
  next_page_token : option string
}.

(** ["result"] of a details body, with the keys of [FIELDS]. *)
Record place_result := PlaceResult {
  r_name : option string;
  r_formatted_address : option string;
  r_formatted_phone_number : option string;
  r_website : option string;
  r_rating : option pyval
}.

(** The body of a details response. *)
Record details := Details {
  det_status : option string;
  det_result : option place_result
}.

(** [results[i]["geometry"]["location"]] of a geocode body. *)
Record location := Location { lat : pyval; lng : pyval }.

(** The body of a geocode response. *)
Record geocode := Geocode {
  geo_status : option string;
  geo_results : list location
}.

(** What [scrape_site_emails] reads of a fetched page: the response status
    (which it never looks at), [soup.get_text(" ")] and, for every anchor of
    the page in order, [a.get("href", "")]. *)
Record html_page := HtmlPage {
  status_code : Z;
  get_text : string;
  hrefs : list string
}.

(** A row of the output: the dict appended on lines 138-145. *)
Record lead := Lead {
  name : string;
  address : string;
  phone : string;
  website : string;
  email : string;
  rating : string
}.

Global Instance place_eq_dec : EqDecision place.
Proof. solve_decision. Defined.
Global Instance lead_eq_dec : EqDecision lead.
Proof. solve_decision. Defined.

(** ** Effects *)

(** Exceptions that leave the module. *)
Inductive exn :=
| RequestException (url : string)   (* [requests.get], [raise_for_status], [r.json()] *)
| ValueError (msg : string)
| KeyError (key : string)
| OverflowError.                    (* [float] of an integer beyond its range *)

(** Requests and delays, as they are issued.  A request is recorded with the
    answer it got; [None] is a request that raised. *)
Inductive event :=
| GetNearby (url : string) (body : option nearby)
| GetDetails (pid : option string) (url : string) (body : option details)
| GetGeocode (address key : string) (body : option geocode)
| GetHtml (url : string) (page : option html_page)
| Sleep (secs : Q).

(** How a call ends.  [Diverged] is a [while] loop that was still running when
    the iterations granted to it were used up. *)
Inductive result (A : Type) :=
| Ok (a : A)
| Raise (e : exn)
| Diverged.
Arguments Ok {A} a.
Arguments Raise {A} e.
Arguments Diverged {A}.

(** The world outside the module.  [W] is the state of the network (the
    providers and the scraped sites), which only requests change; [G] is the
    state of the random generator.

    - [http_nearby], [http_details], [http_geocode]: a [requests.get]
      followed by [raise_for_status] and [json], [None] when one of them
      raises;
    - [http_html]: [requests.get] with [HEADERS] followed by the
      [BeautifulSoup] parse, [None] when one of them raises (a response with
      an error status does not raise);
    - [random]: [random.random()];
    - [float_of_str]: [float] of a string, [None] for [ValueError] (["nan"]
      and ["inf"] are strings it reads);
    - [str]: [str] of a parsed value;
    - [urljoin]: [urllib.parse.urljoin], taken to return;
    - [quote_plus]: the quoting [urllib.parse.urlencode] applies. *)
Class Runtime (W G : Type) := {
  http_nearby : string → W → option nearby * W;
  http_details : string → W → option details * W;
  http_geocode : string → string → W → option geocode * W;
  http_html : string → W → option html_page * W;
  random : G → Q * G;
  random_range : ∀ g, (0 <= (random g).1)%Q ∧ ((random g).1 < 1)%Q;
  float_of_str : string → option pyfloat;
  float_of_digit : ∀ d : nat, (d < 10)%nat →
    float_of_str (Str.digit d) = Some (Finite (inject_Z (Z.of_nat d)));
  str : pyval → string;
  urljoin : string → string → string;
  quote_plus : string → string
}.

Record state (W G : Type) := State { net : W; rng : G }.
Arguments State {W G} net rng.
Arguments net {W G} s.
Arguments rng {W G} s.

(** A computation: from the state before to the result, the state after and
    the events in between. *)
Definition M (W G A : Type) : Type := state W G → result A * state W G * list event.

Section Monad.
Context {W G : Type}.

Definition ret {A} (a : A) : M W G A := λ s, (Ok a, s, []).

Definition bind {A B} (m : M W G A) (k : A → M W G B) : M W G B := λ s,
  match m s with
  | (Ok a, s1, t1) => let '(r, s2, t2) := k a s1 in (r, s2, t1 ++ t2)
  | (Raise e, s1, t1) => (Raise e, s1, t1)
  | (Diverged, s1, t1) => (Diverged, s1, t1)
  end.

Definition raise {A} (e : exn) : M W G A := λ s, (Raise e, s, []).
Definition diverge {A} : M W G A := λ s, (Diverged, s, []).

(** [time.sleep(secs)] *)
Definition sleep (secs : Q) : M W G () := λ s, (Ok (), s, [Sleep secs]).
End Monad.

Notation "x <- m ;; k" := (bind m (λ x, k))
  (at level 100, m at next level, right associativity, only parsing).
Notation "m ;;; k" := (bind m (λ _, k))
  (at level 100, right associativity, only parsing).

(** ** The module [maps_scraper.py]

    Calls to [logging] are left out: they change neither the control flow nor
    the requests. *)

Definition NEARBY_EP : string := "https://maps.googleapis.com/maps/api/place/nearbysearch/json".
Definition DETAILS_EP : string := "https://maps.googleapis.com/maps/api/place/details/json".
Definition GEOCODE_EP : string := "https://maps.googleapis.com/maps/api/geocode/json".
Definition FIELDS : string := "name,formatted_address,formatted_phone_number,website,rating".

(** An optional string inside an f-string: [None] prints as ["None"]. *)
Definition fmt (o : option string) : string := default "None" o.

(** Truth value of [d.get(key)] for a string entry: absent and empty are
    both false. *)
Definition truthy (o : option string) : bool :=
  match o with Some s => Str.truthy s | None => false end.

(** The working state of [collect_leads]: the rows so far and the identifiers
    already handled. *)
Record acc := Acc { leads : list lead; seen : gset (option string) }.

Section Scraper.
Context {W G : Type} `{!Runtime W G}.

Local Abbreviation M := (M W G).

(** [time.sleep(0.1 + random.random() * 0.1)] *)
Definition sleep_jitter : M () := λ s,
  let '(x, g) := random (rng s) in
  (Ok (), State (net s) g, [Sleep ((1 # 10) + x * (1 # 10))%Q]).

(** *** [geocode_location] *)
Definition geocode_location (address api_key : string) : M string := λ s,
  let '(r, w) := http_geocode address api_key (net s) in
  let s' := State w (rng s) in
  let t := [GetGeocode address api_key r] in
  match r with
  | None => (Raise (RequestException GEOCODE_EP), s', t)
  | Some data =>
      if bool_decide (geo_status data ≠ Some "OK") || bool_decide (geo_results data = []) then
        (Raise (ValueError ("Geocode failed: " +:+ fmt (geo_status data))), s', t)
      else
        match geo_results data with
        | loc :: _ => (Ok (str (lat loc) +:+ "," +:+ str (lng loc)), s', t)
        | [] => (Raise (KeyError "results"), s', t)   (* not reached: the list is not empty *)
        end
  end.

(** *** [url_nearby] *)
Definition url_nearby (center : string) (radius : Z) (keyword key : string)
    (token : option string) : string :=
  if truthy token then
    NEARBY_EP +:+ "?pagetoken=" +:+ fmt token +:+ "&key=" +:+ key
  else
    let q := "location=" +:+ quote_plus center
             +:+ "&radius=" +:+ quote_plus (str (PyInt radius))
             +:+ "&keyword=" +:+ quote_plus keyword
             +:+ "&key=" +:+ quote_plus key in
    NEARBY_EP +:+ "?" +:+ q.

(** *** [url_details] *)
Definition url_details (place_id : option string) (key : string) : string :=
  DETAILS_EP +:+ "?place_id=" +:+ fmt place_id +:+ "&fields=" +:+ FIELDS +:+ "&key=" +:+ key.

(** *** [fetch_json], at its two call sites of [collect_leads] *)
Definition fetch_json_nearby (url : string) : M nearby := λ s,
  let '(r, w) := http_nearby url (net s) in
  (match r with Some data => Ok data | None => Raise (RequestException url) end,
   State w (rng s), [GetNearby url r]).

Definition fetch_json_details (pid : option string) (url : string) : M details := λ s,
  let '(r, w) := http_details url (net s) in
  (match r with Some data => Ok data | None => Raise (RequestException url) end,
   State w (rng s), [GetDetails pid url r]).

(** *** [scrape_site_emails] *)

(** [requests.get(target, ...)] and the parse, inside the [try] *)
Definition get_html (target : string) : M (option html_page) := λ s,
  let '(r, w) := http_html target (net s) in
  (Ok r, State w (rng s), [GetHtml target r]).

(** [soup.get_text(" ") + " " + " ".join(a.get("href", "") for a in ...)] *)
Definition blob (p : html_page) : string :=
  get_text p +:+ " " +:+ Str.join " " (hrefs p).

(** the [for target in ...] loop: [found] after it *)
Fixpoint scrape_targets (targets : list string) (found : gset string) : M (gset string) :=
  match targets with
  | [] => ret found
  | target :: rest =>
      r <- get_html target ;;
      match r with
      | Some p =>
          let found := found ∪ list_to_set (EmailPat.findall (blob p)) in
          if bool_decide (found ≠ ∅) then ret found   (* break *)
          else scrape_targets rest found
      | None => scrape_targets rest found           (* except Exception: pass *)
      end
  end.

(** [";".join(sorted(e.lower() for e in found))] *)
Definition join_emails (found : gset string) : string :=
  Str.join ";" (Str.sorted (Str.lower <$> elements found)).

Definition scrape_site_emails (url : string) : M string :=
  found <- scrape_targets [url; urljoin url "/contact"] ∅ ;;
  ret (join_emails found).

(** *** [collect_leads] *)

(** the least magnitude of an integer that [float] does not convert: the
    integers that round, to nearest and ties to even, to [2 ** 1024] *)
Definition FLOAT_OVERFLOW : Z := 2 ^ 1024 - 2 ^ 970.

(** [float(rating)]: [inr None] when it raises [ValueError] or [TypeError],
    the two exceptions line 133 catches, and [inl OverflowError] for an
    integer beyond the range of a [float], which line 133 does not catch. *)
Definition float (v : pyval) : exn + option pyfloat :=
  match v with
  | PyNone => inr None
  | PyBool b => inr (Some (Finite (if b then 1%Q else 0%Q)))
  | PyInt z =>
      if bool_decide (Z.abs z < FLOAT_OVERFLOW)%Z then inr (Some (Finite (inject_Z z)))
      else inl OverflowError
  | PyFloat q => inr (Some (Finite q))
  | PyInfinity negative => inr (Some (Infinity negative))
  | PyNaN => inr (Some NaN)
  | PyStr s => inr (float_of_str s)
  | PyOther => inr None
  end.

(** [x < y] on floats: false as soon as one of them is a NaN *)
Definition float_lt (x y : pyfloat) : bool :=
  match x, y with
  | Finite a, Finite b => negb (Qle_bool b a)
  | Finite _, Infinity negative => negb negative
  | Infinity negative, Finite _ => negative
  | Infinity negative, Infinity negative' => negative && negb negative'
  | NaN, _ | _, NaN => false
  end.

(** [x != y] on floats: true as soon as one of them is a NaN *)
Definition float_ne (x y : pyfloat) : bool :=
  match x, y with
  | Finite a, Finite b => negb (Qeq_bool a b)
  | Infinity negative, Infinity negative' => xorb negative negative'
  | _, _ => true
  end.

(** lines 122-136: does the rating filter take a [continue]?  [inl] is an
    exception that leaves the [try]. *)
Definition rating_skips (rating_filter : string) (rating : pyval) : exn + bool :=
  if bool_decide (rating_filter ≠ "no_filter") then
    match float_of_str rating_filter with
    | Some min_rating =>
        match float rating with
        | inl e => inl e
        | inr (Some place_rating) =>
            if bool_decide (rating_filter = "5") then
              inr (float_ne place_rating (Finite 5%Q))
            else inr (float_lt place_rating min_rating)
        | inr None => inr (bool_decide (rating_filter ≠ "no_filter"))
        end
    | None => inr (bool_decide (rating_filter ≠ "no_filter"))
    end
  else inr false.

(** lines 109-136: does one of the three filters take a [continue]? *)
Definition filters_skip (filters : gmap string string)
    (website email : string) (rating : pyval) : exn + bool :=
  let website_filter := default "no_filter" (filters !! "website") in
  if bool_decide (website_filter = "with") && negb (Str.truthy website) then inr true
  else if bool_decide (website_filter = "without") && Str.truthy website then inr true
  else
    let email_filter := default "no_filter" (filters !! "email") in
    if bool_decide (email_filter = "with") && negb (Str.truthy email) then inr true
    else if bool_decide (email_filter = "without") && Str.truthy email then inr true
    else
      let rating_filter := default "no_filter" (filters !! "rating") in
      rating_skips rating_filter rating.

(** lines 109-120: does the website or the e-mail filter take a [continue]? *)
Definition presence_skips (filters : gmap string string) (website email : string) : bool :=
  let website_filter := default "no_filter" (filters !! "website") in
  if bool_decide (website_filter = "with") && negb (Str.truthy website) then true
  else if bool_decide (website_filter = "without") && Str.truthy website then true
  else
    let email_filter := default "no_filter" (filters !! "email") in
    if bool_decide (email_filter = "with") && negb (Str.truthy email) then true
    else bool_decide (email_filter = "without") && Str.truthy email.

(** the dict of lines 138-145 *)
Definition make_lead (r : place_result) (website email : string) (rating : pyval) : lead :=
  {| name := default "" (r_name r);
     address := default "" (r_formatted_address r);
     phone := default "" (r_formatted_phone_number r);
     website := website;
     email := email;
     rating := str rating |}.

(** [det_data["result"]] *)
Definition get_result (det_data : details) : M place_result :=
  match det_result det_data with
  | Some r => ret r
  | None => raise (KeyError "result")
  end.

(** lines 92-146: the body of [for place in data.get("results", [])].  A
    [continue] is a return of the working state as it stands. *)
Definition process_place (api_key : string) (filters : gmap string string)
    (p : place) (a : acc) : M acc :=
  let pid := place_id p in
  if bool_decide (pid ∈ seen a) then ret a
  else
    let a := Acc (leads a) ({[ pid ]} ∪ seen a) in
    det_data <- fetch_json_details pid (url_details pid api_key) ;;
    if bool_decide (det_status det_data ≠ Some "OK") then ret a
    else
      r <- get_result det_data ;;
      let website := default "" (r_website r) in
      email <- (if Str.truthy website then scrape_site_emails website else ret "") ;;
      let rating := default (PyFloat 0%Q) (r_rating r) in
      match filters_skip filters website email rating with
      | inl e => raise e
      | inr true => ret a
      | inr false =>
          let a := Acc (leads a ++ [make_lead r website email rating]) (seen a) in
          sleep_jitter ;;;
          ret a
      end.

(** lines 91-146: the [for] loop over the results of one page *)
Fixpoint process_results (api_key : string) (filters : gmap string string)
    (ps : list place) (a : acc) : M acc :=
  match ps with
  | [] => ret a
  | p :: ps' =>
      a' <- process_place api_key filters p a ;;
      process_results api_key filters ps' a'
  end.

(** the message of the [ValueError] of line 85 *)
Definition provider_error (data : nearby) : string :=
  "Google Maps API Error: " +:+ fmt (status data) +:+ ". "
  +:+ default "An unknown error occurred with the Google Maps API." (error_message data).

(** lines 78-153: [while page: ...], with [fuel] iterations granted *)
Fixpoint page_loop (fuel : nat) (center : string) (radius : Z) (kw api_key : string)
    (filters : gmap string string) (page : option string) (a : acc) : M acc :=
  if negb (truthy page) then ret a
  else
    match fuel with
    | O => diverge
    | S fuel' =>
        data <- fetch_json_nearby (fmt page) ;;
        if bool_decide (status data ≠ Some "OK") && bool_decide (status data ≠ Some "ZERO_RESULTS")
        then raise (ValueError (provider_error data))
        else if bool_decide (status data = Some "ZERO_RESULTS") then ret a   (* break *)
        else
          a' <- process_results api_key filters (results data) a ;;
          let token := next_page_token data in
          if truthy token then
            sleep (22 # 10)%Q ;;;
            page_loop fuel' center radius kw api_key filters
              (Some (url_nearby center radius kw api_key token)) a'
          else
            page_loop fuel' center radius kw api_key filters None a'
    end.

(** lines 75-153: [for kw in keywords] *)
Fixpoint keyword_loop (fuel : nat) (center : string) (radius : Z) (keywords : list string)
    (api_key : string) (filters : gmap string string) (a : acc) : M acc :=
  match keywords with
  | [] => ret a
  | kw :: kws =>
      a' <- page_loop fuel center radius kw api_key filters
              (Some (url_nearby center radius kw api_key None)) a ;;
      keyword_loop fuel center radius kws api_key filters a'
  end.

Definition collect_leads (fuel : nat) (center : string) (radius : Z) (keywords : list string)
    (api_key : string) (filters : option (gmap string string)) : M (list lead) :=
  let filters := default ∅ filters in
  a <- keyword_loop fuel center radius keywords api_key filters (Acc [] ∅) ;;
  ret (leads a).

(** ** The call site in [main.py]

    [geocode_location(location, KEY) if "," not in location else location] *)
Definition resolve_center (location api_key : string) : M string :=
  if negb (Str.contains ","%char location) then geocode_location location api_key
  else ret location.

End Scraper.

(** ** A table-driven runtime

    A world without state: each request is answered from a table keyed by the
    URL, and a URL missing from its table is a request that raises.  It gives
    the concrete runs the statements below are tried on. *)

Module Tables.

Record t := Make {
  nearby_of : list (string * nearby);
  details_of : list (string * details);
  geocode_of : list (string * geocode);
  html_of : list (string * html_page)
}.

Fixpoint find {A} (k : string) (l : list (string * A)) : option A :=
  match l with
  | [] => None
  | (k', v) :: l' => if decide (k = k') then Some v else find k l'
  end.

(** the value of a string of decimal digits *)
Fixpoint digits (n : N) (s : string) : option N :=
  match s with
  | EmptyString => Some n
  | String c s' =>
      if Str.is_digit c then digits (10 * n + (N_of_ascii c - 48)) s' else None
  end.

Definition parse_float (s : string) : option pyfloat :=
  if bool_decide (s = "nan") then Some NaN
  else if bool_decide (s = "inf") then Some (Infinity false)
  else if bool_decide (s = "-inf") then Some (Infinity true)
  else
    match s with
    | EmptyString => None
    | _ => (λ n, Finite (inject_Z (Z.of_N n))) <$> digits 0 s
    end.

(** [str], exact on integers and on floats with one decimal *)
Definition show (v : pyval) : string :=
  match v with
  | PyNone => "None"
  | PyBool b => if b then "True" else "False"
  | PyInt z => pretty z
  | PyFloat q =>
      pretty (Qnum q / Z.pos (Qden q))%Z +:+ "."
      +:+ pretty ((Qnum q * 10 / Z.pos (Qden q)) mod 10)%Z
  | PyInfinity negative => if negative then "-inf" else "inf"
  | PyNaN => "nan"
  | PyStr s => s
  | PyOther => "[]"
  end.

(** the part of a URL before its path *)
Fixpoint host (l : list ascii) : list ascii :=
  match l with
  | [] => []
  | c :: l' => if decide (c = "/"%char) then [] else c :: host l'
  end.

Fixpoint origin (l : list ascii) : list ascii :=
  match l with
  | [] => []
  | c :: l' =>
      match l' with
      | c1 :: c2 :: l'' =>
          if decide (c = ":"%char ∧ c1 = "/"%char ∧ c2 = "/"%char)
          then c :: c1 :: c2 :: host l''
          else c :: origin l'
      | _ => c :: origin l'
      end
  end.

(** [urljoin] of a URL and an absolute path *)
Definition join_url (base path : string) : string :=
  Str.of_list (origin (Str.to_list base)) +:+ path.

Lemma parse_float_digit (d : nat) :
  (d < 10)%nat →
  parse_float (Str.digit d) = Some (Finite (inject_Z (Z.of_nat d))).
Proof. intros Hd. do 10 (destruct d as [|d]; [reflexivity|]). lia. Qed.

Lemma half_in_range (g : ()) :
  (0 <= ((1 # 2)%Q, g).1)%Q ∧ (((1 # 2)%Q, g).1 < 1)%Q.
Proof. split; [unfold Qle | unfold Qlt]; simpl; lia. Qed.

Definition runtime (tb : t) : Runtime () () := {|
  http_nearby url w := (find url (nearby_of tb), w);
  http_details url w := (find url (details_of tb), w);
  http_geocode address key w := (find address (geocode_of tb), w);
  http_html url w := (find url (html_of tb), w);
  random g := ((1 # 2)%Q, g);
  random_range := half_in_range;
  float_of_str := parse_float;
  float_of_digit := parse_float_digit;
  str := show;
  urljoin := join_url;
  quote_plus s := s
|}.

Definition start : state () () := State () ().

End Tables.

(** ** What is observed of a run *)


(** the identifiers whose details were requested, in order *)
Definition detail_ids (t : list event) : list (option string) :=
  omap (λ e, match e with GetDetails pid _ _ => Some pid | _ => None end) t.


(** the nearby-search URLs requested, in order *)
Definition search_urls (t : list event) : list string :=
  omap (λ e, match e with GetNearby url _ => Some url | _ => None end) t.

(** the delays, in order *)
Definition delays (t : list event) : list Q :=
  omap (λ e, match e with Sleep d => Some d | _ => None end) t.

(** a status that makes [collect_leads] raise (line 82) *)
Definition bad_status (d : nearby) : Prop :=
  status d ≠ Some "OK" ∧ status d ≠ Some "ZERO_RESULTS".

(** a page request of the harvester *)
Definition is_html (e : event) : Prop :=
  match e with GetHtml _ _ => True | _ => False end.



(** a filter specification that filters nothing *)
Definition all_no_filter (filters : option (gmap string string)) : Prop :=
  ∀ key, key ∈ ["website"; "email"; "rating"] →
    default "no_filter" (default ∅ filters !! key) = "no_filter".

Section Observations.
Context {W G : Type} `{!Runtime W G}.
Implicit Types (s : state W G) (a : acc) (t : list event).

(** line 106: [scrape_site_emails(website) if website else ""] *)
Definition harvest (website : string) : M W G string :=
  if Str.truthy website then scrape_site_emails website else ret "".

(** The ways the body of the [for place] loop can end, for a place [p]
    met in working state [a] and world [s]. *)
Inductive place_run (api_key : string) (filters : gmap string string)
    (p : place) (a : acc) (s : state W G) : result acc * state W G * list event → Prop :=
| place_seen :
    place_id p ∈ seen a →
    place_run api_key filters p a s (Ok a, s, [])
| place_request_failed w1 :
    place_id p ∉ seen a →
    http_details (url_details (place_id p) api_key) (net s) = (None, w1) →
    place_run api_key filters p a s
      (Raise (RequestException (url_details (place_id p) api_key)), State w1 (rng s),
       [GetDetails (place_id p) (url_details (place_id p) api_key) None])
| place_not_ok d w1 :
    place_id p ∉ seen a →
    http_details (url_details (place_id p) api_key) (net s) = (Some d, w1) →
    det_status d ≠ Some "OK" →
    place_run api_key filters p a s
      (Ok (Acc (leads a) ({[ place_id p ]} ∪ seen a)), State w1 (rng s),
       [GetDetails (place_id p) (url_details (place_id p) api_key) (Some d)])
| place_no_result d w1 :
    place_id p ∉ seen a →
    http_details (url_details (place_id p) api_key) (net s) = (Some d, w1) →
    det_status d = Some "OK" →
    det_result d = None →
    place_run api_key filters p a s
      (Raise (KeyError "result"), State w1 (rng s),
       [GetDetails (place_id p) (url_details (place_id p) api_key) (Some d)])
| place_filtered d w1 r email w2 th :
    place_id p ∉ seen a →
    http_details (url_details (place_id p) api_key) (net s) = (Some d, w1) →
    det_status d = Some "OK" →
    det_result d = Some r →
    harvest (default "" (r_website r)) (State w1 (rng s)) = (Ok email, State w2 (rng s), th) →
    Forall is_html th →
    filters_skip filters (default "" (r_website r)) email (default (PyFloat 0%Q) (r_rating r))
    = inr true →
    place_run api_key filters p a s
      (Ok (Acc (leads a) ({[ place_id p ]} ∪ seen a)), State w2 (rng s),
       GetDetails (place_id p) (url_details (place_id p) api_key) (Some d) :: th)
| place_filter_raised d w1 r email w2 th e :
    place_id p ∉ seen a →
    http_details (url_details (place_id p) api_key) (net s) = (Some d, w1) →
    det_status d = Some "OK" →
    det_result d = Some r →
    harvest (default "" (r_website r)) (State w1 (rng s)) = (Ok email, State w2 (rng s), th) →
    Forall is_html th →
    filters_skip filters (default "" (r_website r)) email (default (PyFloat 0%Q) (r_rating r))
    = inl e →
    place_run api_key filters p a s
      (Raise e, State w2 (rng s),
       GetDetails (place_id p) (url_details (place_id p) api_key) (Some d) :: th)
| place_kept d w1 r email w2 th x g :
    place_id p ∉ seen a →
    http_details (url_details (place_id p) api_key) (net s) = (Some d, w1) →
    det_status d = Some "OK" →
    det_result d = Some r →
    harvest (default "" (r_website r)) (State w1 (rng s)) = (Ok email, State w2 (rng s), th) →
    Forall is_html th →
    filters_skip filters (default "" (r_website r)) email (default (PyFloat 0%Q) (r_rating r))
    = inr false →
    random (rng s) = (x, g) →
    place_run api_key filters p a s
      (Ok (Acc (leads a ++ [make_lead r (default "" (r_website r)) email
                             (default (PyFloat 0%Q) (r_rating r))])
               ({[ place_id p ]} ∪ seen a)),
       State w2 g,
       GetDetails (place_id p) (url_details (place_id p) api_key) (Some d)
         :: th ++ [Sleep ((1 # 10) + x * (1 # 10))%Q]).

(** The row [l] was built from the details answered for [pid] in [t]. *)
Definition built_from (t : list event) (pid : option string) (l : lead) : Prop :=
  ∃ url d r email,
    GetDetails pid url (Some d) ∈ t
    ∧ det_status d = Some "OK" ∧ det_result d = Some r
    ∧ l = make_lead r (default "" (r_website r)) email (default (PyFloat 0%Q) (r_rating r)).

(** What a run that starts in working state [a] keeps true. *)
Definition dedup (a : acc) (out : result acc * state W G * list event) : Prop :=
  NoDup (detail_ids out.2)
  ∧ (∀ pid, pid ∈ detail_ids out.2 → pid ∉ seen a)
  ∧ ∀ a', out.1.1 = Ok a' →
      seen a' = list_to_set (detail_ids out.2) ∪ seen a
      ∧ ∃ new srcs, leads a' = leads a ++ new
                    ∧ sublist srcs (detail_ids out.2)
                    ∧ Forall2 (built_from out.2) srcs new.


(** no nearby-search request was issued *)
Definition no_search (a : acc) (out : result acc * state W G * list event) : Prop :=
  search_urls out.2 = [].

(** A run under some filters against the run under no filter: unless the
    first raises [OverflowError] (its rating filter met an integer that
    [float] does not convert), the network is left in the same state and the
    runs end the same way, the first with a sub-sequence of the rows of the
    second. *)
Definition refines (out out' : result acc * state W G * list event) : Prop :=
  out.1.1 = Raise OverflowError
  ∨ (net out.1.2 = net out'.1.2
     ∧ match out.1.1, out'.1.1 with
       | Ok a, Ok a' => seen a = seen a' ∧ sublist (leads a) (leads a')
       | Raise e, Raise e' => e = e'
       | Diverged, Diverged => True
       | _, _ => False
       end).

End Observations.

(** ** Example worlds *)

Module Worlds.

Definition search (kw : string) : string :=
  "https://maps.googleapis.com/maps/api/place/nearbysearch/json?location=52.52,13.405&radius=500&keyword="
  +:+ kw +:+ "&key=K".

Definition lookup (pid : string) : string :=
  "https://maps.googleapis.com/maps/api/place/details/json?place_id=" +:+ pid
  +:+ "&fields=name,formatted_address,formatted_phone_number,website,rating&key=K".

Definition alpha : place_result :=
  PlaceResult (Some "Alpha") (Some "1 Main St") None (Some "https://example.com")
    (Some (PyFloat (9 # 2))).
Definition beta : place_result :=
  PlaceResult (Some "Beta") None (Some "030 1234") None None.

Definition bakery_page : nearby :=
  Nearby (Some "OK") None [Place (Some "p1"); Place (Some "p2"); Place (Some "p1")] None.
Definition cafe_page : nearby :=
  Nearby (Some "OK") None [Place (Some "p2"); Place (Some "p3"); Place (Some "p1")] None.

Definition root_page : html_page := HtmlPage 200 "Welcome to Alpha" [""; "/about"].
Definition contact_page : html_page :=
  HtmlPage 200 "Get in touch" ["mailto:sales@example.com"].

(** two keywords whose results overlap *)
Definition town : Tables.t := Tables.Make
  [(search "bakery", bakery_page); (search "cafe", cafe_page)]
  [(lookup "p1", Details (Some "OK") (Some alpha));
   (lookup "p2", Details (Some "OK") (Some beta));
   (lookup "p3", Details (Some "NOT_FOUND") None)]
  [("Nowhere", Geocode (Some "ZERO_RESULTS") [])]
  [("https://example.com", root_page); ("https://example.com/contact", contact_page)].


(** a provider that cannot be reached *)
Definition offline : Tables.t := Tables.Make [] [] [] [].


(** a site that answers 404 with an address in the body, and one that
    writes its address in two letter cases *)
Definition sites : Tables.t := Tables.Make [] [] []
  [("https://gone.example", HtmlPage 404 "Not found. Write to help@gone.example" []);
   ("https://shop.example", HtmlPage 200 "Sales@Shop.example or sales@shop.example" [])].

Definition run (tb : Tables.t) (keywords : list string) (filters : option (gmap string string)) :=
  collect_leads (Runtime0 := Tables.runtime tb) 3 "52.52,13.405" 500 keywords "K" filters
    Tables.start.

End Worlds.

(** ** More of what is observed *)

(** the shape [EMAIL_PAT] accepts: name, [@], host, [.], two letters or more *)
Definition email_shaped (tok : string) : Prop :=
  ∃ name host tld,
    Str.to_list tok = name ++ "@"%char :: host ++ "."%char :: tld
    ∧ name ≠ [] ∧ Forall (λ c, EmailPat.local_char c = true) name
    ∧ host ≠ [] ∧ Forall (λ c, EmailPat.domain_char c = true) host
    ∧ (2 ≤ length tld)%nat ∧ Forall (λ c, Str.is_alpha c = true) tld.

(** the text holds ASCII characters only *)
Definition ascii_only (text : string) : Prop :=
  Forall (λ c, (nat_of_ascii c < 128)%nat) (Str.to_list text).


(** the number of details answered with status ["OK"] *)
Definition ok_details (t : list event) : nat :=
  length (omap (λ e, match e with
                     | GetDetails _ _ (Some d) =>
                         if bool_decide (det_status d = Some "OK") then Some d else None
                     | _ => None
                     end) t).

(** the exception a request makes [collect_leads] raise, if any: a request
    that failed, a search page with a bad status (line 85), or details
    answered ["OK"] without a ["result"] (line 104) *)
Definition error_of (e : event) : option exn :=
  match e with
  | GetNearby url None => Some (RequestException url)
  | GetNearby url (Some d) =>
      if bool_decide (status d ≠ Some "OK") && bool_decide (status d ≠ Some "ZERO_RESULTS")
      then Some (ValueError (provider_error d)) else None
  | GetDetails _ url None => Some (RequestException url)
  | GetDetails _ url (Some d) =>
      if bool_decide (det_status d = Some "OK") && bool_decide (det_result d = None)
      then Some (KeyError "result") else None
  | _ => None
  end.

Section Rows.
Context {W G : Type} `{!Runtime W G}.
Implicit Types (s : state W G) (a : acc) (t : list event).

(** the row was built from a details result that no filter rejects *)
Definition passed (filters : gmap string string) (row : lead) : Prop :=
  ∃ r email,
    row = make_lead r (default "" (r_website r)) email (default (PyFloat 0%Q) (r_rating r))
    ∧ filters_skip filters (default "" (r_website r)) email
        (default (PyFloat 0%Q) (r_rating r)) = inr false.

(** the rows a run adds passed the filters, and are no more than the
    details answered ["OK"] *)
Definition kept_rows (filters : gmap string string) (a : acc)
    (out : result acc * state W G * list event) : Prop :=
  ∀ a', out.1.1 = Ok a' →
    ∃ new, leads a' = leads a ++ new
           ∧ Forall (passed filters) new
           ∧ (length new ≤ ok_details out.2)%nat
           ∧ (all_no_filter (Some filters) → length new = ok_details out.2).

(** requests that make the run raise come last; the other exception of
    the model, the [OverflowError] of the rating filter, is raised by no
    request *)
Definition stops_at_error {A} (out : result A * state W G * list event) : Prop :=
  match out.1.1 with
  | Raise ex => (ex = OverflowError ∧ Forall (λ e, error_of e = None) out.2)
                ∨ ∃ t0 e, out.2 = t0 ++ [e] ∧ error_of e = Some ex
                          ∧ Forall (λ e, error_of e = None) t0
  | _ => Forall (λ e, error_of e = None) out.2
  end.
End Rows.

(** the last event of [t], or [prev], the event before [t], when [t] is
    empty *)
Definition last_before (prev : option event) (t : list event) : option event :=
  match last t with Some e => Some e | None => prev end.

(** every search request of [t] is either for a first page or comes right
    after the delay of line 150; [prev] is the event before [t] *)
Fixpoint pages_paced (first : string → Prop) (prev : option event) (t : list event) : Prop :=
  match t with
  | [] => True
  | e :: t' =>
      match e with
      | GetNearby url _ => first url ∨ prev = Some (Sleep (22 # 10))
      | _ => True
      end
      ∧ pages_paced first (Some e) t'
  end.

Section SinglePages.
Context {W G : Type} `{!Runtime W G}.

(** no page of the world carries a token for a next page *)
Definition single_pages : Prop :=
  ∀ url (w : W), match (http_nearby url w).1 with
                 | Some d => truthy (next_page_token d) = false
                 | None => True
                 end.

End SinglePages.

(** ** More of [str]

    [split], [replace] and [title] as [main.py] uses them, on the callback
    data and on the filter values, which are ASCII; and [strip], [isdigit]
    and [int] on ASCII text, which give an instance of the class [Texts]
    below. *)

Module Text.

(** the characters [str.strip()] removes *)
Definition is_space (c : ascii) : bool :=
  Str.between 9 13 c || Str.between 28 32 c.

Fixpoint lstrip (l : list ascii) : list ascii :=
  match l with
  | c :: l' => if is_space c then lstrip l' else l
  | [] => []
  end.

(** [s.strip()] *)
Definition strip (s : string) : string :=
  Str.of_list (reverse (lstrip (reverse (lstrip (Str.to_list s))))).

(** [s.isdigit()] *)
Definition isdigit (s : string) : bool :=
  match s with
  | EmptyString => false
  | _ => forallb Str.is_digit (Str.to_list s)
  end.

(** [int(s)] for a string of decimal digits *)
Definition int (s : string) : Z :=
  fold_left (λ n c, 10 * n + (Z.of_nat (nat_of_ascii c) - 48))%Z (Str.to_list s) 0%Z.

(** [s.split(sep)], for a one-character separator: the pieces between the
    occurrences of [sep] *)
Fixpoint split (sep : ascii) (s : string) : list string :=
  match s with
  | EmptyString => [""]
  | String c s' =>
      if decide (c = sep) then "" :: split sep s'
      else match split sep s' with
           | piece :: pieces => String c piece :: pieces
           | [] => [String c ""]
           end
  end.

(** [s.replace(old, new)], for one-character strings *)
Fixpoint replace (old new : ascii) (s : string) : string :=
  match s with
  | EmptyString => EmptyString
  | String c s' => String (if decide (c = old) then new else c) (replace old new s')
  end.

Definition upper_ascii (c : ascii) : ascii :=
  if Str.is_lower c then ascii_of_nat (nat_of_ascii c - 32) else c.

(** [s.title()]: a letter that follows a letter is lowered, any other
    letter is raised *)
Fixpoint title_from (previous_is_cased : bool) (s : string) : string :=
  match s with
  | EmptyString => EmptyString
  | String c s' =>
      String (if previous_is_cased then Str.lower_ascii c else upper_ascii c)
             (title_from (Str.is_alpha c) s')
  end.

Definition title (s : string) : string := title_from false s.

Lemma int_nonneg_from l n :
  forallb Str.is_digit l = true → (0 ≤ n)%Z →
  (0 ≤ fold_left (λ n c, 10 * n + (Z.of_nat (nat_of_ascii c) - 48))%Z l n)%Z.
Proof.
  revert n. induction l as [|c l IH]; intros n Hl Hn; [done|].
  cbn [forallb] in Hl. apply andb_prop in Hl as [Hc Hl]. cbn [fold_left].
  apply IH; [done|]. unfold Str.is_digit, Str.between in Hc.
  apply andb_prop in Hc as [Hc%Nat.leb_le _]. lia.
Qed.

Lemma int_nonneg s z :
  isdigit s = true → (if isdigit s then Some (int s) else None) = Some z → (0 ≤ z)%Z.
Proof.
  intros Hs. rewrite Hs. intros [= <-]. unfold int. apply int_nonneg_from; [|done].
  unfold isdigit in Hs. by destruct s.
Qed.

End Text.

(** What [handle_message] calls on the text of a message, which is any
    Unicode text:

    - [strip]: [s.strip()], which removes the white space of Unicode;
    - [isdigit]: [s.isdigit()], which holds of the digits of every script;
    - [int]: [int(s)], [None] when it raises [ValueError] (as it does on a
      superscript digit, for which [isdigit] holds);
    - [int_of_digits]: a text for which [isdigit] holds carries no sign, so
      what [int] reads from it is not negative. *)
Class Texts := {
  strip : string → string;
  isdigit : string → bool;
  int : string → option Z;
  int_of_digits : ∀ s z, isdigit s = true → int s = Some z → (0 ≤ z)%Z
}.

(** the three on ASCII text *)
Definition ascii_texts : Texts := {|
  strip := Text.strip;
  isdigit := Text.isdigit;
  int s := if Text.isdigit s then Some (Text.int s) else None;
  int_of_digits := Text.int_nonneg
|}.

(** ** The conversation of [main.py]

    [context.user_data], with the keys the handlers read and write; a key
    the dict does not hold is [None].  The calls to the Telegram API are left
    out, but for the identifier of the message a handler sends, which the
    handler stores: it is an argument. *)

Module Bot.

Record user_data := UserData {
  ud_step : option string;
  ud_location : option string;
  ud_radius : option Z;
  ud_keywords : option (list string);
  ud_filters : option (gmap string string);
  ud_bot_msg_id : option Z
}.

Definition STEP_LOCATION : string := "location".
Definition STEP_RADIUS : string := "radius".
Definition STEP_KEYWORDS : string := "keywords".
Definition STEP_FILTERS : string := "filters".

Definition PRICE_GEOCODING_PER_1000 : Q := 5.
Definition PRICE_NEARBY_SEARCH_PER_1000 : Q := 32.
Definition PRICE_PLACE_DETAILS_PER_1000 : Q := 17.
Definition ESTIMATED_PAGES_PER_KEYWORD : Z := 3.
Definition ESTIMATED_PLACES_PER_PAGE : Z := 18.
Definition ESTIMATED_AWS_COST_PER_JOB : Q := 1 # 10.

(** [round(x)] to the nearest integer, a tie going to the even one *)
Definition round_half_even (x : Q) : Z :=
  let f := Qfloor x in
  match (x - inject_Z f ?= 1 # 2)%Q with
  | Lt => f
  | Gt => (f + 1)%Z
  | Eq => if Z.even f then f else (f + 1)%Z
  end.

(** [round(x, 2)] *)
Definition round2 (x : Q) : Q := (inject_Z (round_half_even (x * 100)) / 100)%Q.

(** the cents of [f"{price:.2f}"], the amount the messages of lines 307
    and 358 show *)
Definition cents_shown (price : Q) : Z := round_half_even (price * 100).

(** [max(x, y)] *)
Definition py_max (x y : Q) : Q := if Qle_bool y x then x else y.

(** [calculate_price], lines 108-121 *)
Definition calculate_price (data : user_data) : Q :=
  let num_keywords := Z.of_nat (length (default [] (ud_keywords data))) in
  let location := default "" (ud_location data) in
  let gmaps_cost := 0%Q in
  let gmaps_cost :=
    if negb (Str.contains ","%char location)
    then (gmaps_cost + PRICE_GEOCODING_PER_1000 / 1000)%Q else gmaps_cost in
  let num_nearby_searches := (num_keywords * ESTIMATED_PAGES_PER_KEYWORD)%Z in
  let gmaps_cost :=
    (gmaps_cost + (inject_Z num_nearby_searches / 1000) * PRICE_NEARBY_SEARCH_PER_1000)%Q in
  let num_place_details :=
    (num_keywords * ESTIMATED_PAGES_PER_KEYWORD * ESTIMATED_PLACES_PER_PAGE)%Z in
  let gmaps_cost :=
    (gmaps_cost + (inject_Z num_place_details / 1000) * PRICE_PLACE_DETAILS_PER_1000)%Q in
  let total_internal_cost := (gmaps_cost + ESTIMATED_AWS_COST_PER_JOB)%Q in
  let user_price := (total_internal_cost * 2)%Q in
  py_max (round2 user_price) (1 # 2).

(** [start], lines 129-138: [msg_id] is the identifier of the welcome
    message *)
Definition start (msg_id : Z) (data : user_data) : user_data :=
  {| ud_step := Some STEP_LOCATION; ud_location := None; ud_radius := None; ud_keywords := None;
     ud_filters := None; ud_bot_msg_id := Some msg_id |}.

(** [handle_message], lines 140-198: [text] is the text of the message and
    [msg_id] the identifier of the message the handler sends next; [None] is
    the [ValueError] of [int(user_text)] on line 166, raised before
    [user_data] is written *)
Definition handle_message {texts : Texts} (text : string) (msg_id : Z) (data : user_data)
    : option user_data :=
  let user_text := strip text in
  if bool_decide (ud_step data = Some STEP_LOCATION) then
    Some {| ud_step := Some STEP_RADIUS; ud_location := Some user_text;
            ud_radius := ud_radius data; ud_keywords := ud_keywords data;
            ud_filters := ud_filters data; ud_bot_msg_id := Some msg_id |}
  else if bool_decide (ud_step data = Some STEP_RADIUS) then
    if negb (isdigit user_text) then Some data
    else
      match int user_text with
      | Some radius =>
          Some {| ud_step := Some STEP_KEYWORDS; ud_location := ud_location data;
                  ud_radius := Some radius; ud_keywords := Some [];
                  ud_filters := ud_filters data; ud_bot_msg_id := Some msg_id |}
      | None => None
      end
  else if bool_decide (ud_step data = Some STEP_KEYWORDS) then
    Some {| ud_step := ud_step data; ud_location := ud_location data;
            ud_radius := ud_radius data;
            ud_keywords := Some (default [] (ud_keywords data) ++ [user_text]);
            ud_filters := ud_filters data; ud_bot_msg_id := ud_bot_msg_id data |}
  else Some data.

(** the dict of line 279 *)
Definition no_filters : gmap string string :=
  {[ "website" := "no_filter"; "email" := "no_filter"; "rating" := "no_filter" ]}.

(** what [show_filter_menu] puts in the summary it sends *)
Record menu := Menu {
  menu_location : string;
  menu_radius : Z;
  menu_keywords : string;
  menu_website : string;
  menu_email : string;
  menu_rating : string
}.

(** [show_filter_menu], lines 200-228: the fields of the summary, or the
    [KeyError] of the first of the three keys the text reads that
    [user_data] does not hold *)
Definition show_filter_menu (data : user_data) : exn + menu :=
  let filters := default ∅ (ud_filters data) in
  let website_filter :=
    Text.title (Text.replace "_" " " (default "no_filter" (filters !! "website"))) in
  let email_filter :=
    Text.title (Text.replace "_" " " (default "no_filter" (filters !! "email"))) in
  let rating_filter_val := default "no_filter" (filters !! "rating") in
  let rating_filter_text :=
    if bool_decide (rating_filter_val = "no_filter") then "No Filter"
    else if bool_decide (rating_filter_val = "5") then "5"
    else rating_filter_val +:+ "+" in
  match ud_location data with
  | None => inl (KeyError "location")
  | Some location =>
      match ud_radius data with
      | None => inl (KeyError "radius")
      | Some radius =>
          match ud_keywords data with
          | None => inl (KeyError "keywords")
          | Some keywords =>
              inr (Menu location radius (Str.join ", " keywords)
                        website_filter email_filter rating_filter_text)
          end
      end
  end.

(** [user_data] holds what a job needs: a location, a radius that is not
    negative, a keyword at least, and filters *)
Definition ready (d : user_data) : Prop :=
  ∃ location radius keywords filters,
    ud_location d = Some location
    ∧ ud_radius d = Some radius ∧ (0 ≤ radius)%Z
    ∧ ud_keywords d = Some keywords ∧ keywords ≠ []
    ∧ ud_filters d = Some filters.

(** [handle_keywords_done], lines 272-281: [user_data] afterwards, and what
    [show_filter_menu] did when it is reached *)
Definition handle_keywords_done (data : user_data) : user_data * option (exn + menu) :=
  match default [] (ud_keywords data) with
  | [] => (data, None)
  | _ :: _ =>
      let data :=
        {| ud_step := Some STEP_FILTERS; ud_location := ud_location data;
           ud_radius := ud_radius data; ud_keywords := ud_keywords data;
           ud_filters := Some no_filters; ud_bot_msg_id := ud_bot_msg_id data |} in
      (data, Some (show_filter_menu data))
  end.

(** [handle_set_filter], lines 257-265: [None] is the [IndexError] of
    [parts[2]], raised before [user_data] is written *)
Definition handle_set_filter (query_data : string) (data : user_data)
    : option (user_data * (exn + menu)) :=
  let parts := Text.split "_"%char query_data in
  match parts !! 2%nat with
  | Some filter_type =>
      let filter_value := Str.join "_" (drop 3 parts) in
      let data :=
        {| ud_step := ud_step data; ud_location := ud_location data;
           ud_radius := ud_radius data; ud_keywords := ud_keywords data;
           ud_filters := Some (<[ filter_type := filter_value ]> (default ∅ (ud_filters data)));
           ud_bot_msg_id := ud_bot_msg_id data |} in
      Some (data, show_filter_menu data)
  | None => None
  end.

(** What reaches the bot.  The other callbacks ([filter_...],
    [back_to_filters], [start_scraping], [pay_...]) leave [user_data] as it
    is. *)
Inductive update :=
| CmdStart (msg_id : Z)
| TextMessage (text : string) (msg_id : Z)
| KeywordsDone
| SetFilter (query_data : string)
| OtherCallback.

(** [user_data] after the handler of an update; a handler that raises
    before it writes leaves it as it was *)
Definition handle {texts : Texts} (u : update) (data : user_data) : user_data :=
  match u with
  | CmdStart msg_id => start msg_id data
  | TextMessage text msg_id => default data (handle_message text msg_id data)
  | KeywordsDone => (handle_keywords_done data).1
  | SetFilter query_data => from_option fst data (handle_set_filter query_data data)
  | OtherCallback => data
  end.

(** the empty dict a new chat starts with *)
Definition no_data : user_data := UserData None None None None None None.

(** [user_data] after a sequence of updates *)
Definition conversation {texts : Texts} (us : list update) : user_data :=
  foldl (λ d u, handle u d) no_data us.

(** the price in cents for [n] keywords; [c] is 1 when the location has to
    be geocoded and 0 otherwise *)
Definition cents (n c : Z) : Z := Z.max 50 ((2028 * n + 200 + 10 * c + 5) / 10).

(** the states a conversation goes through *)
Definition phase (d : user_data) : Prop :=
  ((ud_step d = None ∨ ud_step d = Some STEP_LOCATION)
   ∧ ud_location d = None ∧ ud_radius d = None ∧ ud_keywords d = None)
  ∨ (ud_step d = Some STEP_RADIUS
     ∧ is_Some (ud_location d) ∧ ud_radius d = None ∧ ud_keywords d = None)
  ∨ (ud_step d = Some STEP_KEYWORDS
     ∧ is_Some (ud_location d) ∧ (∃ r, ud_radius d = Some r ∧ (0 ≤ r)%Z)
     ∧ is_Some (ud_keywords d))
  ∨ (ud_step d = Some STEP_FILTERS ∧ ready d).

End Bot.

(** ** The job of [execute_scraping] *)

(** the addresses geocoded in a run *)
Definition geocoded (t : list event) : list string :=
  omap (λ e, match e with GetGeocode address _ _ => Some address | _ => None end) t.

Section Job.
Context {W G : Type} `{!Runtime W G}.

(** [_blocking_scraping_and_file_io], lines 456-471, on the variables it
    closes over: the rows [execute_scraping] goes on with, [None] when it
    reports that nothing was found.  Writing the files is left out. *)
Definition blocking_scraping_and_file_io (fuel : nat) (location : string) (radius : Z)
    (keywords : list string) (filters : gmap string string) (api_key : string)
    : M W G (option (list lead)) :=
  center <- resolve_center location api_key ;;
  leads <- collect_leads fuel center radius keywords api_key (Some filters) ;;
  match leads with
  | [] => ret None
  | _ :: _ => ret (Some leads)
  end.

End Job.

(** ** More example worlds, and a chat *)

Module Journeys.

Definition first_page : string :=
  "https://maps.googleapis.com/maps/api/place/nearbysearch/json?location=52.5,13.4&radius=500&keyword=bakery&key=K".
Definition second_page : string :=
  "https://maps.googleapis.com/maps/api/place/nearbysearch/json?pagetoken=T2&key=K".

(** a city that is geocoded, and a keyword with two pages of results *)
Definition metro : Tables.t := Tables.Make
  [(first_page, Nearby (Some "OK") None [Place (Some "p1")] (Some "T2"));
   (second_page, Nearby (Some "OK") None [Place (Some "p2")] None)]
  [(Worlds.lookup "p1", Details (Some "OK") (Some Worlds.alpha));
   (Worlds.lookup "p2", Details (Some "OK") (Some Worlds.beta))]
  [("Berlin", Geocode (Some "OK") [Location (PyFloat (105 # 2)) (PyFloat (67 # 5))])]
  [].


(** one place, whose rating is the literal [NaN] *)
Definition gamma : place_result := PlaceResult (Some "Gamma") None None None (Some PyNaN).
Definition nan_rating : Tables.t := Tables.Make
  [(Worlds.search "bakery", Nearby (Some "OK") None [Place (Some "p4")] None)]
  [(Worlds.lookup "p4", Details (Some "OK") (Some gamma))] [] [].

(** one place, whose rating is an integer of 401 digits *)
Definition huge_rating : Tables.t := Tables.Make
  [(Worlds.search "bakery", Nearby (Some "OK") None [Place (Some "p5")] None)]
  [(Worlds.lookup "p5",
    Details (Some "OK") (Some (PlaceResult (Some "Delta") None None None
                                 (Some (PyInt (10 ^ 400))))))] [] [].

(** a chat that goes from [/start] to the choice of a rating filter *)
Definition chat : list Bot.update :=
  [Bot.CmdStart 1; Bot.TextMessage " Berlin " 2; Bot.TextMessage "abc" 3;
   Bot.TextMessage "0500" 4; Bot.TextMessage "bakery" 5; Bot.TextMessage " cafe" 6;
   Bot.KeywordsDone; Bot.SetFilter "set_filter_rating_4"].

End Journeys.

(** * Proofs *)

(** ** The scan of [EMAIL_PAT] *)

Module EmailPatFacts.
Import EmailPat.










End EmailPatFacts.

(** ** The harvester *)

Section HarvestFacts.
Context {W G : Type} `{!Runtime W G}.
Implicit Types (s : state W G).



End HarvestFacts.

Section SingleCalls.
Context {W G : Type} `{!Runtime W G}.
Implicit Types (s : state W G).



(** C7.  A location that contains a comma is returned unchanged and no
    request is issued, so ["52.52,13.405"] resolves to itself.  For any other
    location one geocode request is issued, and the call raises an error that
    carries the provider status when that status is not ["OK"] or the result
    list is empty. *)
Theorem resolve_center_cases location key s :
  (Str.contains ","%char location = true →
     resolve_center location key s = (Ok location, s, []))
  ∧ (Str.contains ","%char location = false →
     let body := (http_geocode location key (net s)).1 in
     (resolve_center location key s).2 = [GetGeocode location key body]
     ∧ ∀ data, body = Some data →
         geo_status data ≠ Some "OK" ∨ geo_results data = [] →
         (resolve_center location key s).1.1
         = Raise (ValueError ("Geocode failed: " +:+ fmt (geo_status data))))
  ∧ resolve_center "52.52,13.405" key s = (Ok "52.52,13.405", s, []).
Proof.
  unfold resolve_center. split; [|split]; [by intros -> | | done].
  intros ->. cbn [negb]. unfold geocode_location.
  destruct (http_geocode location key (net s)) as [body w]. cbn [fst].
  split.
  - destruct body as [data|]; [|done].
    destruct (_ || _); [done|]. by destruct (geo_results data).
  - intros data -> Hbad.
    assert (bool_decide (geo_status data ≠ Some "OK")
            || bool_decide (geo_results data = []) = true) as ->; [|done].
    destruct Hbad as [Hs|Hr].
    + by rewrite (bool_decide_true _ Hs).
    + rewrite (bool_decide_true (_ = [])) by done. apply orb_true_r.
Qed.

Lemma filters_skip_presence filters website email rating :
  filters_skip filters website email rating
  = if presence_skips filters website email then inr true
    else rating_skips (default "no_filter" (filters !! "rating")) rating.
Proof. unfold filters_skip, presence_skips. by repeat case_match. Qed.

Lemma rating_skips_digit (n : nat) rating :
  (1 ≤ n ≤ 5)%nat →
  rating_skips (Str.digit n) rating
  = match float rating with
    | inl e => inl e
    | inr (Some x) =>
        inr (if bool_decide (n = 5%nat) then float_ne x (Finite 5)
             else float_lt x (Finite (inject_Z (Z.of_nat n))))
    | inr None => inr true
    end.
Proof.
  intros Hn. unfold rating_skips. rewrite (float_of_digit n) by lia.
  destruct n as [|[|[|[|[|[|n]]]]]]; try lia; by destruct (float rating) as [e|[x|]].
Qed.

(** X24.  What the rating filter does under ["1"] to ["5"], for a place
    that the website and e-mail filters let through.  A rating that is a
    finite number is kept exactly when it is 5.0 under ["5"], and at least
    the number under ["1"] to ["4"]; a rating [float] cannot read
    ([ValueError], [TypeError]) is skipped, and so is a missing rating; a
    rating that is a NaN is kept under ["1"] to ["4"], and so is the positive
    infinity; an integer too large for a float makes the filter raise
    [OverflowError]. *)
Theorem rating_filter_exact filters website email (found_rating : option pyval) (n : nat) :
  let rating := default (PyFloat 0%Q) found_rating in
  let skip := filters_skip filters website email rating in
  (1 ≤ n ≤ 5)%nat →
  filters !! "rating" = Some (Str.digit n) →
  presence_skips filters website email = false →
  match float rating with
  | inl e => skip = inl e
  | inr None => skip = inr true
  | inr (Some x) =>
      (∃ b, skip = inr b)
      ∧ (skip = inr false ↔
           match x with
           | Finite q => if bool_decide (n = 5%nat) then (q == 5)%Q
                         else (inject_Z (Z.of_nat n) <= q)%Q
           | Infinity negative => negative = false ∧ n ≠ 5%nat
           | NaN => n ≠ 5%nat
           end)
  end
  ∧ (found_rating = None → skip = inr true).
Proof.
  intros rating skip Hn Hf Hp. subst skip.
  rewrite filters_skip_presence, Hp, Hf. cbn [default from_option id].
  rewrite (rating_skips_digit n) by done. split.
  - destruct (float rating) as [e|[x|]]; [done| |done]. split; [eauto|].
    destruct x as [q|negative|]; cbn [float_ne float_lt].
    + case_bool_decide.
      * rewrite <- Qeq_bool_iff. destruct (Qeq_bool q 5); naive_solver.
      * rewrite <- Qle_bool_iff. destruct (Qle_bool _ q); naive_solver.
    + case_bool_decide; destruct negative; naive_solver.
    + case_bool_decide; naive_solver.
  - intros ->. subst rating. cbn.
    destruct n as [|[|[|[|[|[|n]]]]]]; try lia; done.
Qed.

End SingleCalls.

(** ** One place *)

Section Outcomes.
Context {W G : Type} `{!Runtime W G}.
Implicit Types (s : state W G) (a : acc).

Lemma scrape_targets_html targets found s :
  ∃ found' w2 th,
    scrape_targets targets found s = (Ok found', State w2 (rng s), th) ∧ Forall is_html th.
Proof.
  revert found s. induction targets as [|u targets IH]; intros found s; cbn [scrape_targets].
  - exists found, (net s), []. by destruct s.
  - unfold bind at 1, get_html at 1.
    destruct (http_html u (net s)) as [r w1].
    assert (∀ f, ∃ found' w2 th,
      (let '(r0, s2, t2) := scrape_targets targets f (State w1 (rng s)) in
       (r0, s2, [GetHtml u r] ++ t2)) = (Ok found', State w2 (rng s), th) ∧ Forall is_html th)
      as Hrest.
    { intros f. destruct (IH f (State w1 (rng s))) as (f' & w2 & th & -> & Hth).
      exists f', w2, (GetHtml u r :: th). split; [done|]. by constructor. }
    destruct r as [p|]; [|apply Hrest].
    case_bool_decide; [|apply Hrest].
    eexists _, w1, [_]. split; [done|]. by repeat constructor.
Qed.

Lemma harvest_html website s :
  ∃ email w2 th,
    harvest website s = (Ok email, State w2 (rng s), th) ∧ Forall is_html th.
Proof.
  unfold harvest. destruct (Str.truthy website).
  - unfold scrape_site_emails, bind.
    destruct (scrape_targets_html [website; urljoin website "/contact"] ∅ s)
      as (f & w2 & th & -> & Hth).
    exists (join_emails f), w2, th. cbn [ret]. by rewrite app_nil_r.
  - exists "", (net s), []. by destruct s.
Qed.

Lemma process_place_run api_key filters p a s :
  place_run api_key filters p a s (process_place api_key filters p a s).
Proof.
  unfold process_place. case_bool_decide as Hseen; [by constructor|].
  unfold bind at 1, fetch_json_details at 1.
  destruct (http_details _ (net s)) as [[d|] w1] eqn:Hd; [|by constructor].
  case_bool_decide as Hst; [by apply place_not_ok|].
  unfold bind at 1, get_result. destruct (det_result d) as [r|] eqn:Hr;
    [|by apply place_no_result].
  cbn [ret]. unfold bind at 1. fold (harvest (default "" (r_website r))).
  destruct (harvest_html (default "" (r_website r)) (State w1 (rng s)))
    as (email & w2 & th & Hh & Hth).
  rewrite Hh. cbn [rng] in *.
  destruct (filters_skip _ _ _ _) as [e|[]] eqn:Hf.
  - cbn [raise app]. rewrite ?app_nil_r. by eapply place_filter_raised.
  - cbn [ret app]. rewrite ?app_nil_r. by eapply place_filtered.
  - unfold bind, sleep_jitter. cbn [rng net].
    destruct (random (rng s)) as [x g] eqn:Hx. cbn [ret].
    cbn [app leads seen]. rewrite ?app_nil_r. by eapply place_kept.
Qed.
End Outcomes.

(** ** Loop invariants *)

Section Invariant.
Context {W G : Type} `{!Runtime W G}.
Implicit Types (s : state W G) (a : acc).

Variables (api_key : string) (filters : gmap string string).

(** A property of a run that starts in working state [a]. *)
Variable P : acc → result acc * state W G * list event → Prop.

Hypothesis P_ret : ∀ a s, P a (Ok a, s, []).
Hypothesis P_seq : ∀ a a1 s1 t1 r2 s2 t2,
  P a (Ok a1, s1, t1) → P a1 (r2, s2, t2) → P a (r2, s2, t1 ++ t2).
Hypothesis P_place : ∀ p a s, P a (process_place api_key filters p a s).
Hypothesis P_request_failed : ∀ a url s,
  P a (Raise (RequestException url), s, [GetNearby url None]).
Hypothesis P_bad : ∀ a url d s,
  bad_status d → P a (Raise (ValueError (provider_error d)), s, [GetNearby url (Some d)]).
Hypothesis P_page : ∀ a url d s,
  ¬ bad_status d → P a (Ok a, s, [GetNearby url (Some d)]).
Hypothesis P_sleep : ∀ a s, P a (Ok a, s, [Sleep (22 # 10)]).
Hypothesis P_diverged : ∀ a s, P a (Diverged, s, []).

Lemma P_bind (m : M W G acc) (k : acc → M W G acc) a s :
  P a (m s) → (∀ a1 s1, P a1 (k a1 s1)) → P a (bind m k s).
Proof using P_seq.
  intros Hm Hk. unfold bind. destruct (m s) as [[[a1|e|] s1] t1]; [|done..].
  specialize (Hk a1 s1). destruct (k a1 s1) as [[r2 s2] t2]. by eapply P_seq.
Qed.

Lemma process_results_inv ps a s :
  P a (process_results api_key filters ps a s).
Proof using P_ret P_seq P_place.
  revert a s. induction ps as [|p ps IH]; intros a s; cbn [process_results].
  - apply P_ret.
  - apply P_bind; [apply P_place | apply IH].
Qed.

Lemma page_loop_inv fuel center radius kw page a s :
  P a (page_loop fuel center radius kw api_key filters page a s).
Proof using All.
  revert page a s. induction fuel as [|fuel IH]; intros page a s.
  - cbn [page_loop]. destruct (negb (truthy page)); [apply P_ret | apply P_diverged].
  - cbn [page_loop]. destruct (negb (truthy page)); [apply P_ret|].
    unfold bind at 1, fetch_json_nearby at 1.
    destruct (http_nearby (fmt page) (net s)) as [[d|] w1]; [|apply P_request_failed].
    destruct (bool_decide (status d ≠ Some "OK")
              && bool_decide (status d ≠ Some "ZERO_RESULTS")) eqn:Hbad.
    { apply andb_prop in Hbad as [H1%bool_decide_eq_true H2%bool_decide_eq_true].
      cbn [raise]. by apply P_bad. }
    assert (¬ bad_status d) as Hok.
    { intros [H1 H2]. by rewrite !bool_decide_true in Hbad. }
    destruct (bool_decide (status d = Some "ZERO_RESULTS")).
    { cbn [ret]. by apply P_page. }
    match goal with |- context [bind ?m ?k (State w1 (rng s))] =>
      pose proof (P_bind m k a (State w1 (rng s))) as Hrest;
      destruct (bind m k (State w1 (rng s))) as [[r2 s2] t2] end.
    eapply (P_seq _ a s); [by apply P_page | apply Hrest].
    + apply process_results_inv.
    + intros a1 s1. destruct (truthy (next_page_token d)); [|apply IH].
      unfold bind, sleep.
      match goal with |- context [page_loop ?f ?c ?r ?k ?ak ?fl ?pg ?ac ?st] =>
        pose proof (IH pg ac st) as Hnext;
        destruct (page_loop f c r k ak fl pg ac st) as [[r3 s3] t3] end.
      eapply (P_seq _ a1 s1); [apply P_sleep | apply Hnext].
Qed.

Lemma keyword_loop_inv fuel center radius keywords a s :
  P a (keyword_loop fuel center radius keywords api_key filters a s).
Proof using All.
  revert a s. induction keywords as [|kw kws IH]; intros a s; cbn [keyword_loop].
  - apply P_ret.
  - apply P_bind; [apply page_loop_inv | apply IH].
Qed.
End Invariant.

Section TraceFacts.
Context {W G : Type} `{!Runtime W G}.
Implicit Types (s : state W G) (a : acc) (t : list event).

Lemma detail_ids_app t1 t2 : detail_ids (t1 ++ t2) = detail_ids t1 ++ detail_ids t2.
Proof. apply omap_app. Qed.
Lemma search_urls_app t1 t2 : search_urls (t1 ++ t2) = search_urls t1 ++ search_urls t2.
Proof. apply omap_app. Qed.

Lemma html_only t :
  Forall is_html t →
  detail_ids t = [] ∧ search_urls t = [] ∧ delays t = []
  ∧ ∀ url body, GetNearby url body ∉ t.
Proof.
  induction 1 as [|e t He _ IH].
  { repeat split; try done. intros url body. apply not_elem_of_nil. }
  destruct e; try done. destruct IH as (? & ? & ? & Hn).
  repeat split; try done. intros u b [?|?]%elem_of_cons; [done|]. by eapply Hn.
Qed.

End TraceFacts.

(** ** Provider errors *)

Section ProviderErrors.
Context {W G : Type} `{!Runtime W G}.
Implicit Types (s : state W G) (a : acc) (t : list event).

Lemma filters_skip_raises filters website email rating e :
  filters_skip filters website email rating = inl e → e = OverflowError.
Proof.
  unfold filters_skip, rating_skips, float. intros He.
  repeat case_match; congruence.
Qed.

Lemma error_of_html t : Forall is_html t → Forall (λ e, error_of e = None) t.
Proof. intros Ht. eapply Forall_impl; [done|]. by intros []. Qed.

Lemma stops_at_error_seq a1 s1 t1 (r2 : result acc) s2 t2 :
  stops_at_error (Ok a1, s1, t1) → stops_at_error (r2, s2, t2) →
  stops_at_error (r2, s2, t1 ++ t2).
Proof.
  unfold stops_at_error. cbn. intros H1 H2. destruct r2 as [a2|ex|].
  - by apply Forall_app.
  - destruct H2 as [[-> H2]|(t0 & e & -> & He & H0)].
    + left. split; [done|]. by apply Forall_app.
    + right. exists (t1 ++ t0), e.
      rewrite app_assoc. split; [done|]. split; [done|]. by apply Forall_app.
  - by apply Forall_app.
Qed.

Lemma stops_at_error_place api_key filters p a s :
  stops_at_error (process_place api_key filters p a s).
Proof.
  destruct (process_place_run api_key filters p a s) as
    [Hseen | w1 Hnew Hd | d w1 Hnew Hd Hst | d w1 Hnew Hd Hst Hr
     | d w1 r email w2 th Hnew Hd Hst Hr Hh Hth Hf
     | d w1 r email w2 th e Hnew Hd Hst Hr Hh Hth Hf
     | d w1 r email w2 th x g Hnew Hd Hst Hr Hh Hth Hf Hx];
    unfold stops_at_error; cbn [fst snd].
  - constructor.
  - right. by exists [], (GetDetails (place_id p) (url_details (place_id p) api_key) None).
  - constructor; [|constructor]. cbn. by rewrite bool_decide_false.
  - right. eexists [], _. split; [done|]. split; [|done]. cbn.
    by rewrite bool_decide_true, bool_decide_true.
  - constructor; [|by apply error_of_html]. cbn.
    rewrite (bool_decide_false (det_result d = None)) by (by rewrite Hr).
    by rewrite andb_false_r.
  - left. split; [by eapply filters_skip_raises|].
    constructor; [|by apply error_of_html]. cbn.
    rewrite (bool_decide_false (det_result d = None)) by (by rewrite Hr).
    by rewrite andb_false_r.
  - constructor.
    + cbn. rewrite (bool_decide_false (det_result d = None)) by (by rewrite Hr).
      by rewrite andb_false_r.
    + apply Forall_app. split; [by apply error_of_html|]. by repeat constructor.
Qed.

Lemma keyword_loop_stops_at_error fuel center radius keywords api_key filters a s :
  stops_at_error (keyword_loop fuel center radius keywords api_key filters a s).
Proof.
  apply (keyword_loop_inv api_key filters (λ _ out, stops_at_error out)).
  - intros. constructor.
  - intros ? ? ? ? ? ? ?. apply stops_at_error_seq.
  - apply stops_at_error_place.
  - intros ? url ?. right. by exists [], (GetNearby url None).
  - intros ? url d ? [H1 H2]. right. exists [], (GetNearby url (Some d)). split; [done|].
    split; [|done]. cbn. by rewrite !bool_decide_true.
  - intros ? url d ? Hok. constructor; [|constructor]. cbn.
    destruct (bool_decide (status d ≠ Some "OK")) eqn:E1,
             (bool_decide (status d ≠ Some "ZERO_RESULTS")) eqn:E2; try done.
    apply bool_decide_eq_true in E1, E2. by destruct Hok.
  - intros. by repeat constructor.
  - intros. constructor.
Qed.

Lemma collect_leads_stops fuel center radius keywords api_key filters s :
  stops_at_error (collect_leads fuel center radius keywords api_key filters s).
Proof.
  pose proof (keyword_loop_stops_at_error fuel center radius keywords api_key
                (default ∅ filters) (Acc [] ∅) s) as Hk.
  unfold collect_leads, bind. unfold stops_at_error in *.
  destruct (keyword_loop _ _ _ _ _ _ _ _) as [[[a1|e|] s1] t1]; cbn in *;
    rewrite ?app_nil_r; done.
Qed.

(** a request that makes the run raise is the last event, and the run
    raises what that request makes it raise *)
Lemma stops_at_error_abort {A} (r : result A) s t t0 e ex t1 :
  stops_at_error (r, s, t) → t = t0 ++ e :: t1 → error_of e = Some ex →
  t1 = [] ∧ r = Raise ex.
Proof.
  unfold stops_at_error. cbn. intros H -> He.
  assert (∀ l, Forall (λ e, error_of e = None) l → e ∉ l) as Hnot.
  { intros l Hl Hin. apply (proj1 (Forall_forall _ _) Hl) in Hin. congruence. }
  assert (e ∈ t0 ++ e :: t1) as Hin by set_solver.
  destruct r as [a|ex'|]; [by destruct (Hnot _ H)| |by destruct (Hnot _ H)].
  destruct H as [[-> H]|(t0' & e' & Heq & He' & H0)]; [by destruct (Hnot _ H)|].
  destruct t1 as [|x t1 _] using rev_ind.
  - apply app_inj_tail in Heq as [-> ->]. split; [done|]. congruence.
  - exfalso. rewrite app_comm_cons, app_assoc in Heq. apply app_inj_tail in Heq as [<- _].
    apply (Hnot _ H0). set_solver.
Qed.





End ProviderErrors.

(** ** Deduplication *)

Section Dedup.
Context {W G : Type} `{!Runtime W G}.
Implicit Types (s : state W G) (a : acc) (t : list event).

Lemma built_from_mono t t' pid l : t ⊆ t' → built_from t pid l → built_from t' pid l.
Proof. intros Ht (url & d & r & email & Hin & ?). exists url, d, r, email. split; [set_solver|done]. Qed.

Lemma detail_ids_cons pid url body t :
  detail_ids (GetDetails pid url body :: t) = pid :: detail_ids t.
Proof. done. Qed.


Local Ltac no_new_row :=
  exists [], []; rewrite app_nil_r; split; [done|];
  split; [apply sublist_nil_l | constructor].

Lemma dedup_quiet a (r : result acc) s t :
  detail_ids t = [] → (∀ a', r = Ok a' → a' = a) → dedup a (r, s, t).
Proof.
  intros Ht Hr. unfold dedup. cbn [fst snd]. rewrite Ht.
  split; [constructor|]. split; [by intros ? ?%not_elem_of_nil|].
  intros a' ->%Hr. split; [set_solver|].
  no_new_row.
Qed.

Lemma dedup_seq a a1 s1 t1 (r2 : result acc) s2 t2 :
  dedup a (Ok a1, s1, t1) → dedup a1 (r2, s2, t2) → dedup a (r2, s2, t1 ++ t2).
Proof.
  unfold dedup. cbn [fst snd]. intros (Hnd1 & Hfresh1 & Hok1) (Hnd2 & Hfresh2 & Hok2).
  destruct (Hok1 a1 eq_refl) as (Hseen1 & new1 & srcs1 & Hleads1 & Hsub1 & Hb1).
  rewrite detail_ids_app.
  split; [|split].
  - apply NoDup_app. split; [done|]. split; [|done].
    intros pid Hin1 Hin2. apply Hfresh2 in Hin2. rewrite Hseen1 in Hin2. set_solver.
  - intros pid [Hin|Hin]%elem_of_app; [by apply Hfresh1|].
    apply Hfresh2 in Hin. rewrite Hseen1 in Hin. set_solver.
  - intros a' Ha'. destruct (Hok2 a' Ha') as (Hseen2 & new2 & srcs2 & Hleads2 & Hsub2 & Hb2).
    split; [rewrite Hseen2, Hseen1; set_solver|].
    exists (new1 ++ new2), (srcs1 ++ srcs2).
    split; [by rewrite Hleads2, Hleads1, app_assoc|].
    split; [by apply sublist_app|].
    apply Forall2_app.
    + eapply Forall2_impl; [done|]. intros ? ?. apply built_from_mono. set_solver.
    + eapply Forall2_impl; [done|]. intros ? ?. apply built_from_mono. set_solver.
Qed.

Lemma dedup_place api_key filters p a s :
  dedup a (process_place api_key filters p a s).
Proof.
  destruct (process_place_run api_key filters p a s) as
    [Hseen | w1 Hnew Hd | d w1 Hnew Hd Hst | d w1 Hnew Hd Hst Hr
     | d w1 r email w2 th Hnew Hd Hst Hr Hh Hth Hf
     | d w1 r email w2 th e Hnew Hd Hst Hr Hh Hth Hf
     | d w1 r email w2 th x g Hnew Hd Hst Hr Hh Hth Hf Hx].
  - apply dedup_quiet; [done|]. intros ? ?. by simplify_eq.
  - unfold dedup. cbn [fst snd]. rewrite detail_ids_cons. cbn [detail_ids omap].
    split; [apply NoDup_singleton|]. split; [|done].
    by intros pid ->%list_elem_of_singleton.
  - unfold dedup. cbn [fst snd]. rewrite detail_ids_cons. cbn [detail_ids omap].
    split; [apply NoDup_singleton|].
    split; [by intros pid ->%list_elem_of_singleton|].
    intros a' [= <-]. cbn. split; [set_solver|]. no_new_row.
  - unfold dedup. cbn [fst snd]. rewrite detail_ids_cons. cbn [detail_ids omap].
    split; [apply NoDup_singleton|]. split; [|done].
    by intros pid ->%list_elem_of_singleton.
  - unfold dedup. cbn [fst snd]. rewrite detail_ids_cons.
    destruct (html_only th Hth) as (-> & _).
    split; [apply NoDup_singleton|].
    split; [by intros pid ->%list_elem_of_singleton|].
    intros a' [= <-]. cbn. split; [set_solver|]. no_new_row.
  - unfold dedup. cbn [fst snd]. rewrite detail_ids_cons.
    destruct (html_only th Hth) as (-> & _).
    split; [apply NoDup_singleton|]. split; [|done].
    by intros pid ->%list_elem_of_singleton.
  - unfold dedup. cbn [fst snd]. rewrite detail_ids_cons, detail_ids_app.
    destruct (html_only th Hth) as (-> & _). cbn [detail_ids omap app].
    split; [apply NoDup_singleton|].
    split; [by intros pid ->%list_elem_of_singleton|].
    intros a' [= <-]. cbn. split; [set_solver|].
    eexists [_], [place_id p]. split; [done|]. split; [done|].
    constructor; [|constructor]. eexists _, d, r, email. split; [|done]. apply list_elem_of_here.
Qed.


Lemma keyword_loop_dedup fuel center radius keywords api_key filters a s :
  dedup a (keyword_loop fuel center radius keywords api_key filters a s).
Proof.
  apply (keyword_loop_inv api_key filters dedup).
  - intros. apply dedup_quiet; [done|]. intros ? ?. by simplify_eq.
  - intros ? ? ? ? ? ? ?. apply dedup_seq.
  - apply dedup_place.
  - intros. apply dedup_quiet; [done|]. intros ? ?. by simplify_eq.
  - intros. apply dedup_quiet; [done|]. intros ? ?. by simplify_eq.
  - intros. apply dedup_quiet; [done|]. intros ? ?. by simplify_eq.
  - intros. apply dedup_quiet; [done|]. intros ? ?. by simplify_eq.
  - intros. apply dedup_quiet; [done|]. intros ? ?. by simplify_eq.
Qed.

(** C1.  In every run of [collect_leads], over any keywords and pages, the
    details of an identifier are requested at most once, and the rows
    returned are built from the details of pairwise distinct identifiers, in
    the order of the requests.  A place whose identifier is already in
    [seen] is skipped without any request. *)
Theorem collect_leads_no_duplicate_place fuel center radius keywords api_key filters s :
  let out := collect_leads fuel center radius keywords api_key filters s in
  NoDup (detail_ids out.2)
  ∧ (∀ rows, out.1.1 = Ok rows →
       ∃ srcs, NoDup srcs ∧ sublist srcs (detail_ids out.2)
               ∧ Forall2 (built_from out.2) srcs rows)
  ∧ (∀ p a s', place_id p ∈ seen a →
       process_place api_key (default ∅ filters) p a s' = (Ok a, s', [])).
Proof.
  intros out. subst out.
  pose proof (keyword_loop_dedup fuel center radius keywords api_key (default ∅ filters)
                (Acc [] ∅) s) as (Hnd & _ & Hok).
  unfold collect_leads, bind.
  destruct (keyword_loop _ _ _ _ _ _ _ _) as [[[a1|e|] s1] t1]; cbn in *;
    rewrite ?app_nil_r.
  all: split; [done|]. all: split.
  all: try (intros p a s' Hin; unfold process_place; by rewrite bool_decide_true).
  all: try done.
  intros rows [= <-]. destruct (Hok a1 eq_refl) as (_ & new & srcs & -> & Hsub & Hb).
  exists srcs. split; [by eapply sublist_NoDup|done].
Qed.
End Dedup.

(** ** Pacing *)

Section Jitter.
Context {W G : Type} `{!Runtime W G}.
Implicit Types (s : state W G) (a : acc) (t : list event).







End Jitter.

(** ** Pagination *)

Section LastPage.
Context {W G : Type} `{!Runtime W G}.
Implicit Types (s : state W G) (a : acc) (t : list event).

Lemma process_results_no_search api_key filters ps a s :
  search_urls (process_results api_key filters ps a s).2 = [].
Proof.
  apply (process_results_inv api_key filters no_search).
  - done.
  - unfold no_search. cbn [snd]. intros ? ? ? ? ? ? ? H1 H2.
    by rewrite search_urls_app, H1, H2.
  - intros p a0 s0. unfold no_search.
    destruct (process_place_run api_key filters p a0 s0) as
      [Hseen | w1 Hnew Hd | d w1 Hnew Hd Hst | d w1 Hnew Hd Hst Hr
       | d w1 r email w2 th Hnew Hd Hst Hr Hh Hth Hf
       | d w1 r email w2 th e Hnew Hd Hst Hr Hh Hth Hf
       | d w1 r email w2 th x g Hnew Hd Hst Hr Hh Hth Hf Hx]; cbn [snd]; try done.
    + by destruct (html_only th Hth) as (_ & Hs & _).
    + by destruct (html_only th Hth) as (_ & Hs & _).
    + change (GetDetails ?x ?y ?z :: ?t) with ([GetDetails x y z] ++ t).
      rewrite !search_urls_app. by destruct (html_only th Hth) as (_ & -> & _).
Qed.

Lemma process_results_not_diverged api_key filters ps a s :
  (process_results api_key filters ps a s).1.1 ≠ Diverged.
Proof.
  apply (process_results_inv api_key filters (λ _ out, out.1.1 ≠ Diverged)); try done.
  intros p a0 s0. by destruct (process_place_run api_key filters p a0 s0).
Qed.




End LastPage.

(** ** Filters *)

Section Superset.
Context {W G : Type} `{!Runtime W G}.
Implicit Types (s : state W G) (a : acc) (t : list event).

Lemma filters_skip_open filters website email rating :
  all_no_filter (Some filters) → filters_skip filters website email rating = inr false.
Proof.
  intros Hopen. unfold filters_skip, rating_skips. cbn in Hopen.
  rewrite !Hopen by set_solver. done.
Qed.

Lemma scrape_targets_rng targets found w g g' :
  scrape_targets targets found (State w g')
  = (let '(r, s2, t) := scrape_targets targets found (State w g) in
     (r, State (net s2) g', t)).
Proof.
  revert found w. induction targets as [|u targets IH]; intros found w; [done|].
  cbn [scrape_targets]. unfold bind, get_html. cbn [net rng].
  destruct (http_html u w) as [r w1].
  destruct r as [p|].
  - case_bool_decide; [done|]. rewrite IH.
    by destruct (scrape_targets targets _ (State w1 g)) as [[? ?] ?].
  - rewrite IH. by destruct (scrape_targets targets _ (State w1 g)) as [[? ?] ?].
Qed.

Lemma harvest_rng website w g g' email w2 th :
  harvest website (State w g) = (Ok email, State w2 g, th) →
  harvest website (State w g') = (Ok email, State w2 g', th).
Proof.
  unfold harvest. destruct (Str.truthy website); [|by intros [= <- <- <-]].
  unfold scrape_site_emails, bind. rewrite (scrape_targets_rng _ _ w g g').
  destruct (scrape_targets _ _ (State w g)) as [[[f|e|] s2] t]; [|done..].
  cbn. intros ?. by simplify_eq.
Qed.

Lemma refines_place api_key filters open p a a' s s' :
  all_no_filter (Some open) →
  net s = net s' → seen a = seen a' → sublist (leads a) (leads a') →
  refines (process_place api_key filters p a s) (process_place api_key open p a' s').
Proof.
  intros Hopen Hnet Hseen Hsub.
  pose proof (process_place_run api_key filters p a s) as Hrun.
  pose proof (process_place_run api_key open p a' s') as Hrun'.
  destruct Hrun as
    [Hin | w1 Hnew Hd | d w1 Hnew Hd Hst | d w1 Hnew Hd Hst Hr
     | d w1 r email w2 th Hnew Hd Hst Hr Hh Hth Hf
     | d w1 r email w2 th e Hnew Hd Hst Hr Hh Hth Hf
     | d w1 r email w2 th x g Hnew Hd Hst Hr Hh Hth Hf Hx];
  destruct Hrun' as
    [Hin' | w1' Hnew' Hd' | d' w1' Hnew' Hd' Hst' | d' w1' Hnew' Hd' Hst' Hr'
     | d' w1' r' email' w2' th' Hnew' Hd' Hst' Hr' Hh' Hth' Hf'
     | d' w1' r' email' w2' th' e' Hnew' Hd' Hst' Hr' Hh' Hth' Hf'
     | d' w1' r' email' w2' th' x' g' Hnew' Hd' Hst' Hr' Hh' Hth' Hf' Hx'];
  rewrite <- ?Hseen, <- ?Hnet in *; try done; try (rewrite Hd in Hd'); simplify_eq;
  try (rewrite (filters_skip_open open) in Hf' by done; done).
  all: try (apply filters_skip_raises in Hf as ->; by left).
  all: try (apply (harvest_rng _ _ _ (rng s')) in Hh; rewrite Hh in Hh'; simplify_eq).
  all: right; split; cbn [fst snd net leads seen]; try done.
  - split; [done|]. by apply sublist_inserts_r.
  - split; [done|]. by apply sublist_app.
Qed.

Lemma refines_bind (m m' : M W G acc) (k k' : acc → M W G acc) s s' :
  refines (m s) (m' s') →
  (∀ a a' s1 s1', net s1 = net s1' → seen a = seen a' → sublist (leads a) (leads a') →
     refines (k a s1) (k' a' s1')) →
  refines (bind m k s) (bind m' k' s').
Proof.
  unfold bind. intros [Hov|[Hnet Hres]] Hk.
  { left. destruct (m s) as [[[a|e|] s1] t1]; cbn in *; by simplify_eq. }
  destruct (m s) as [[[a|e|] s1] t1], (m' s') as [[[a'|e'|] s1'] t1']; cbn in *; try done.
  - destruct Hres as [Hseen Hsub].
    specialize (Hk a a' s1 s1' Hnet Hseen Hsub).
    by destruct (k a s1) as [[? ?] ?], (k' a' s1') as [[? ?] ?].
  - by right.
  - by right.
Qed.

Lemma refines_results api_key filters open ps a a' s s' :
  all_no_filter (Some open) →
  net s = net s' → seen a = seen a' → sublist (leads a) (leads a') →
  refines (process_results api_key filters ps a s) (process_results api_key open ps a' s').
Proof.
  intros Hopen. revert a a' s s'.
  induction ps as [|p ps IH]; intros a a' s s' Hnet Hseen Hsub; cbn [process_results].
  - by right.
  - apply refines_bind; [by apply refines_place|]. intros. by apply IH.
Qed.

Lemma refines_fetch url (k k' : nearby → M W G acc) s s' :
  net s = net s' →
  (∀ d s1 s1', net s1 = net s1' → refines (k d s1) (k' d s1')) →
  refines (bind (fetch_json_nearby url) k s) (bind (fetch_json_nearby url) k' s').
Proof.
  intros Hnet Hk. unfold bind, fetch_json_nearby. rewrite <- Hnet.
  destruct (http_nearby url (net s)) as [[d|] w1]; [|by right].
  specialize (Hk d (State w1 (rng s)) (State w1 (rng s')) eq_refl).
  by destruct (k d _) as [[? ?] ?], (k' d _) as [[? ?] ?].
Qed.

Lemma refines_sleep secs (k k' : () → M W G acc) s s' :
  refines (k () s) (k' () s') →
  refines (bind (sleep secs) k s) (bind (sleep secs) k' s').
Proof.
  intros Hk. unfold bind, sleep.
  by destruct (k () s) as [[? ?] ?], (k' () s') as [[? ?] ?].
Qed.

Lemma refines_pages fuel center radius kw api_key filters open page a a' s s' :
  all_no_filter (Some open) →
  net s = net s' → seen a = seen a' → sublist (leads a) (leads a') →
  refines (page_loop fuel center radius kw api_key filters page a s)
          (page_loop fuel center radius kw api_key open page a' s').
Proof.
  intros Hopen. revert page a a' s s'.
  induction fuel as [|fuel IH]; intros page a a' s s' Hnet Hseen Hsub; cbn [page_loop].
  - by destruct (negb (truthy page)); right.
  - destruct (negb (truthy page)); [by right|].
    apply refines_fetch; [done|]. intros d s1 s1' Hn.
    destruct (_ && _); [by right|]. destruct (bool_decide (status d = _)); [by right|].
    apply refines_bind; [by apply refines_results|].
    intros a1 a1' s2 s2' Hn2 Hs2 Hl2.
    destruct (truthy (next_page_token d)); [|by apply IH].
    apply refines_sleep. by apply IH.
Qed.

Lemma refines_keywords fuel center radius keywords api_key filters open a a' s s' :
  all_no_filter (Some open) →
  net s = net s' → seen a = seen a' → sublist (leads a) (leads a') →
  refines (keyword_loop fuel center radius keywords api_key filters a s)
          (keyword_loop fuel center radius keywords api_key open a' s').
Proof.
  intros Hopen. revert a a' s s'.
  induction keywords as [|kw kws IH]; intros a a' s s' Hnet Hseen Hsub; cbn [keyword_loop].
  - by right.
  - apply refines_bind; [by apply refines_pages|]. intros. by apply IH.
Qed.

(** C4.  On the same world, the rows returned under any filters are a
    sub-sequence, hence a subset, of the rows returned under a specification
    that filters nothing; and the filtered run returns whenever the
    unfiltered one does, unless its rating filter raises [OverflowError] on
    a rating that is an integer too large for a [float]. *)
Theorem no_filter_superset fuel center radius keywords api_key filters open s :
  all_no_filter open →
  let kept := (collect_leads fuel center radius keywords api_key filters s).1.1 in
  let all := (collect_leads fuel center radius keywords api_key open s).1.1 in
  (∀ rows, kept = Ok rows →
     ∃ rows', all = Ok rows' ∧ sublist rows rows' ∧ rows ⊆ rows')
  ∧ (∀ rows', all = Ok rows' → (∃ rows, kept = Ok rows) ∨ kept = Raise OverflowError).
Proof.
  intros Hopen kept all. subst kept all.
  assert (all_no_filter (Some (default ∅ open))) as Hopen'.
  { intros key Hkey. specialize (Hopen key Hkey). by destruct open. }
  pose proof (refines_keywords fuel center radius keywords api_key (default ∅ filters)
                (default ∅ open) (Acc [] ∅) (Acc [] ∅) s s Hopen' eq_refl eq_refl
                (sublist_nil)) as Href.
  unfold collect_leads, bind.
  destruct (keyword_loop _ _ _ _ _ (default ∅ filters) _ _) as [[[a|e|] s1] t1],
           (keyword_loop _ _ _ _ _ (default ∅ open) _ _) as [[[a'|e'|] s1'] t1'];
    cbn in *; destruct Href as [Hov|[_ Hres]]; simplify_eq; try done.
  - destruct Hres as [_ Hsub]. split.
    + intros rows [= <-]. exists (leads a'). split; [done|]. split; [done|].
      by apply sublist_subseteq.
    + intros rows' _. left. by eexists.
  - split; [done|]. intros rows' _. right. cbn in Hov. by simplify_eq.
Qed.
End Superset.

(** ** More of [maps_scraper.py] *)

Module EmailPatShape.
Import EmailPat.

Lemma span_fst p l : Forall (λ c, p c = true) (span p l).1.
Proof.
  induction l as [|c l IH]; cbn [span]; [constructor|].
  destruct (p c) eqn:Hc; [|constructor].
  destruct (span p l) as [a b]. cbn in *. by constructor.
Qed.

Lemma dot_tld_shape l m rest :
  dot_tld l = Some (m, rest) →
  ∃ tld, m = "."%char :: tld ∧ (2 ≤ length tld)%nat ∧ Forall (λ c, Str.is_alpha c = true) tld.
Proof.
  destruct l as [|c l]; cbn [dot_tld]; [done|]. case_decide as Hc; [|done].
  pose proof (span_fst Str.is_alpha l) as Hs. destruct (span Str.is_alpha l) as [tld r].
  destruct (2 <=? length tld)%nat eqn:Hlen; [|done]. intros [= <- <-].
  exists tld. subst c. split; [done|]. split; [by apply Nat.leb_le|done].
Qed.

Lemma domain_tail_shape l m rest :
  domain_tail l = Some (m, rest) →
  ∃ pre tld, m = pre ++ "."%char :: tld ∧ pre `prefix_of` l
             ∧ (2 ≤ length tld)%nat ∧ Forall (λ c, Str.is_alpha c = true) tld.
Proof.
  revert m rest. induction l as [|c l IH]; intros m rest; [done|].
  cbn [domain_tail]. destruct (domain_tail l) as [[m' rest']|].
  - intros [= <- <-]. destruct (IH _ _ eq_refl) as (pre & tld & -> & Hpre & Hlen & Htld).
    exists (c :: pre), tld. split; [done|]. split; [by apply prefix_cons|done].
  - intros (tld & -> & Hlen & Htld)%dot_tld_shape.
    exists [], tld. split; [done|]. split; [apply prefix_nil|done].
Qed.

Lemma match_here_shape l m rest :
  match_here l = Some (m, rest) → email_shaped (Str.of_list m).
Proof.
  unfold match_here. pose proof (span_fst local_char l) as Hloc.
  destruct (span local_char l) as [loc after]. cbn [fst] in Hloc.
  destruct loc as [|c loc]; [done|]. destruct after as [|a after]; [done|].
  case_decide as Ha; [|done]. subst a.
  pose proof (span_fst domain_char after) as Hdom.
  destruct (span domain_char after) as [dom after_dom]. cbn [fst] in Hdom.
  destruct dom as [|d dom]; [done|].
  destruct (domain_tail dom) as [[m' rest']|] eqn:Ht; [|done].
  intros [= <- <-].
  apply domain_tail_shape in Ht as (pre & tld & -> & [k ->] & Hlen & Htld).
  exists (c :: loc), (d :: pre), tld. unfold Str.to_list, Str.of_list.
  rewrite list_ascii_of_string_of_list_ascii.
  split; [done|]. split; [done|]. split; [done|]. split; [done|].
  split; [|done].
  apply Forall_cons in Hdom as [Hd Hrest]. constructor; [done|].
  by apply Forall_app in Hrest as [? _].
Qed.

Lemma scan_shape n l : Forall email_shaped (scan n l).
Proof.
  revert l. induction n as [|n IH]; intros l; [by destruct l; constructor|].
  destruct l as [|c l]; cbn [scan]; [constructor|].
  destruct (match_here (c :: l)) as [[m rest]|] eqn:Hm; [|apply IH].
  constructor; [by eapply match_here_shape | apply IH].
Qed.

Lemma findall_shape blob : Forall email_shaped (findall blob).
Proof. apply scan_shape. Qed.

End EmailPatShape.

(** X1.  On a text of ASCII characters, every token [EMAIL_PAT.findall]
    returns has the shape name[@]host[.]tld, with a name in
    [[A-Za-z0-9._%+-]], a host in [[A-Za-z0-9.-]] and a tld of two ASCII
    letters or more.  (On other text, [re.I] lets [[A-Z]] match a few
    characters beyond the ASCII letters.) *)
Theorem findall_email_shaped blob :
  ascii_only blob → Forall email_shaped (EmailPat.findall blob).
Proof. intros _. apply EmailPatShape.findall_shape. Qed.


Section HarvestMore.
Context {W G : Type} `{!Runtime W G}.
Implicit Types (s : state W G).










End HarvestMore.

Section RowsFacts.
Context {W G : Type} `{!Runtime W G}.
Implicit Types (s : state W G) (a : acc) (t : list event).

Lemma ok_details_app t1 t2 : ok_details (t1 ++ t2) = (ok_details t1 + ok_details t2)%nat.
Proof. unfold ok_details. by rewrite omap_app, length_app. Qed.

Lemma ok_details_html t : Forall is_html t → ok_details t = 0%nat.
Proof. induction 1 as [|e t He _ IH]; [done|]. by destruct e. Qed.

Lemma kept_rows_quiet filters a (r : result acc) s t :
  ok_details t = 0%nat → (∀ a', r = Ok a' → a' = a) → kept_rows filters a (r, s, t).
Proof.
  intros Ht Hr a' ->%Hr. exists []. rewrite app_nil_r. cbn [snd]. rewrite Ht.
  by repeat split.
Qed.

Lemma kept_rows_seq filters a a1 s1 t1 (r2 : result acc) s2 t2 :
  kept_rows filters a (Ok a1, s1, t1) → kept_rows filters a1 (r2, s2, t2) →
  kept_rows filters a (r2, s2, t1 ++ t2).
Proof.
  intros H1 H2 a' Ha'.
  destruct (H1 a1 eq_refl) as (new1 & Hl1 & Hp1 & Hle1 & Heq1).
  destruct (H2 a' Ha') as (new2 & Hl2 & Hp2 & Hle2 & Heq2). cbn [fst snd] in *.
  exists (new1 ++ new2). rewrite Hl2, Hl1, app_assoc, ok_details_app, length_app.
  split; [done|]. split; [by apply Forall_app|]. split; [lia|].
  intros Hopen. rewrite Heq1, Heq2; done.
Qed.

Lemma kept_rows_place api_key filters p a s :
  kept_rows filters a (process_place api_key filters p a s).
Proof.
  destruct (process_place_run api_key filters p a s) as
    [Hseen | w1 Hnew Hd | d w1 Hnew Hd Hst | d w1 Hnew Hd Hst Hr
     | d w1 r email w2 th Hnew Hd Hst Hr Hh Hth Hf
     | d w1 r email w2 th e Hnew Hd Hst Hr Hh Hth Hf
     | d w1 r email w2 th x g Hnew Hd Hst Hr Hh Hth Hf Hx].
  - apply kept_rows_quiet; [done|]. intros ? ?. by simplify_eq.
  - apply kept_rows_quiet; [done|]. intros ? ?. by simplify_eq.
  - intros a' [= <-]. exists []. rewrite app_nil_r. cbn [leads fst snd].
    unfold ok_details. cbn. rewrite bool_decide_false by done. cbn.
    split; [done|]. split; [done|]. split; [lia|done].
  - by intros a' ?.
  - intros a' [= <-]. exists []. rewrite app_nil_r. cbn [leads fst snd].
    change (GetDetails ?x ?y ?z :: ?t) with ([GetDetails x y z] ++ t).
    rewrite ok_details_app, (ok_details_html th) by done.
    unfold ok_details at 1. cbn. rewrite bool_decide_true by done. cbn.
    split; [done|]. split; [done|]. split; [lia|].
    intros Hopen. by rewrite (filters_skip_open filters) in Hf.
  - by intros a' ?.
  - intros a' [= <-]. eexists [_]. cbn [leads fst snd].
    change (GetDetails ?x ?y ?z :: ?t) with ([GetDetails x y z] ++ t).
    rewrite !ok_details_app, (ok_details_html th) by done.
    unfold ok_details. cbn. rewrite bool_decide_true by done. cbn.
    split; [done|]. split; [|done]. constructor; [|done]. by exists r, email.
Qed.

Lemma keyword_loop_kept_rows fuel center radius keywords api_key filters a s :
  kept_rows filters a (keyword_loop fuel center radius keywords api_key filters a s).
Proof.
  apply (keyword_loop_inv api_key filters (kept_rows filters)).
  - intros. apply kept_rows_quiet; [done|]. intros ? ?. by simplify_eq.
  - intros ? ? ? ? ? ? ?. apply kept_rows_seq.
  - apply kept_rows_place.
  - intros. apply kept_rows_quiet; [done|]. intros ? ?. by simplify_eq.
  - intros. apply kept_rows_quiet; [done|]. intros ? ?. by simplify_eq.
  - intros. apply kept_rows_quiet; [done|]. intros ? ?. by simplify_eq.
  - intros. apply kept_rows_quiet; [done|]. intros ? ?. by simplify_eq.
  - intros. apply kept_rows_quiet; [done|]. intros ? ?. by simplify_eq.
Qed.

Lemma collect_leads_kept_rows fuel center radius keywords api_key filters s rows :
  (collect_leads fuel center radius keywords api_key filters s).1.1 = Ok rows →
  Forall (passed (default ∅ filters)) rows
  ∧ (length rows ≤ ok_details (collect_leads fuel center radius keywords api_key filters s).2)%nat
  ∧ (all_no_filter filters →
     length rows = ok_details (collect_leads fuel center radius keywords api_key filters s).2).
Proof.
  pose proof (keyword_loop_kept_rows fuel center radius keywords api_key (default ∅ filters)
                (Acc [] ∅) s) as Hk.
  unfold collect_leads, bind.
  destruct (keyword_loop _ _ _ _ _ _ _ _) as [[[a1|e|] s1] t1]; cbn in *; try done.
  intros [= <-]. destruct (Hk a1 eq_refl) as (new & -> & Hp & Hle & Heq).
  rewrite app_nil_r. split; [done|]. split; [done|].
  intros Hopen. apply Heq. intros key Hkey. specialize (Hopen key Hkey). by destruct filters.
Qed.

(** X6.  Every row returned passed the website and the e-mail filter: under
    ["with"] the field is not empty, under ["without"] it is empty. *)
Theorem collect_leads_presence_filters fuel center radius keywords api_key filters s rows :
  (collect_leads fuel center radius keywords api_key filters s).1.1 = Ok rows →
  let website_filter := default "no_filter" (default ∅ filters !! "website") in
  let email_filter := default "no_filter" (default ∅ filters !! "email") in
  (website_filter = "with" → Forall (λ row, website row ≠ "") rows)
  ∧ (website_filter = "without" → Forall (λ row, website row = "") rows)
  ∧ (email_filter = "with" → Forall (λ row, email row ≠ "") rows)
  ∧ (email_filter = "without" → Forall (λ row, email row = "") rows).
Proof.
  intros Hrun wf ef.
  destruct (collect_leads_kept_rows _ _ _ _ _ _ _ _ Hrun) as (Hp & _).
  assert (∀ row, passed (default ∅ filters) row →
            (wf = "with" → website row ≠ "") ∧ (wf = "without" → website row = "")
            ∧ (ef = "with" → email row ≠ "") ∧ (ef = "without" → email row = "")) as Hrow.
  { intros row (r & em & -> & Hf). unfold filters_skip in Hf. fold wf ef in Hf. cbn.
    destruct (default "" (r_website r)) as [|c w] eqn:Hw, em as [|c' em'];
      repeat case_bool_decide; cbn in Hf; repeat split; intros; simplify_eq; done. }
  repeat split; intros Hflt; eapply Forall_impl; try exact Hp;
    intros row Hr; apply Hrow in Hr; naive_solver.
Qed.

(** X7.  A run returns at most one row for each details request answered
    ["OK"], and exactly one when nothing is filtered. *)
Theorem collect_leads_row_count fuel center radius keywords api_key filters s rows :
  (collect_leads fuel center radius keywords api_key filters s).1.1 = Ok rows →
  (length rows ≤ ok_details (collect_leads fuel center radius keywords api_key filters s).2)%nat
  ∧ (all_no_filter filters →
     length rows = ok_details (collect_leads fuel center radius keywords api_key filters s).2).
Proof. intros Hrun. by destruct (collect_leads_kept_rows _ _ _ _ _ _ _ _ Hrun) as (_ & ?). Qed.

(** X8.  A request that fails, a search page with a bad status and details
    answered ["OK"] without a ["result"] each end the run at once: such a
    request is the last event of the run, and the run raises the exception
    of that request ([RequestException], the [ValueError] of line 85, the
    [KeyError] of line 104). *)
Theorem collect_leads_stops_at_error fuel center radius keywords api_key filters s :
  let out := collect_leads fuel center radius keywords api_key filters s in
  ∀ t0 e t1 ex,
    out.2 = t0 ++ e :: t1 → error_of e = Some ex →
    t1 = [] ∧ out.1.1 = Raise ex.
Proof.
  intros out t0 e t1 ex Ht He.
  pose proof (collect_leads_stops fuel center radius keywords api_key filters s) as Hstop.
  fold out in Hstop. destruct out as [[r s1] t]. by eapply stops_at_error_abort.
Qed.
End RowsFacts.

Section Pages.
Context {W G : Type} `{!Runtime W G}.
Implicit Types (s : state W G) (a : acc) (t : list event).

Lemma bind_fetch_trace {B} url (k : nearby → M W G B) s :
  ∃ body t', (bind (fetch_json_nearby url) k s).2 = GetNearby url body :: t'.
Proof.
  unfold bind, fetch_json_nearby.
  destruct (http_nearby url (net s)) as [[d|] w1]; [|by eexists _, _].
  destruct (k d _) as [[? ?] ?]. by eexists _, _.
Qed.

Lemma page_loop_first_request fuel center radius kw api_key filters page a s :
  truthy page = true →
  ∃ body t', (page_loop (S fuel) center radius kw api_key filters page a s).2
             = GetNearby (fmt page) body :: t'.
Proof.
  intros Hp. cbn [page_loop]. rewrite Hp. cbn [negb]. apply bind_fetch_trace.
Qed.

Lemma keyword_loop_first_pages fuel center radius keywords api_key filters a s a' :
  (keyword_loop fuel center radius keywords api_key filters a s).1.1 = Ok a' →
  sublist ((λ kw, url_nearby center radius kw api_key None) <$> keywords)
          (search_urls (keyword_loop fuel center radius keywords api_key filters a s).2).
Proof.
  revert a s. induction keywords as [|kw kws IH]; intros a s; cbn [keyword_loop fmap list_fmap].
  - intros _. apply sublist_nil_l.
  - unfold bind.
    destruct (page_loop fuel _ _ _ _ _ _ a s) as [[[a1|e|] s1] t1] eqn:Hpage; [|done..].
    specialize (IH a1 s1).
    destruct (keyword_loop _ _ _ _ _ _ a1 s1) as [[r2 s2] t2]. cbn [fst snd] in *.
    intros Hr. specialize (IH Hr). rewrite search_urls_app.
    destruct fuel as [|fuel]; [done|].
    destruct (page_loop_first_request fuel center radius kw api_key filters
                (Some (url_nearby center radius kw api_key None)) a s eq_refl)
      as (body & t' & Ht).
    rewrite Hpage in Ht. cbn [snd] in Ht. subst t1. cbn.
    apply sublist_skip. by apply sublist_inserts_l.
Qed.

(** X9.  A run that returns has requested the first page of every keyword,
    in the order of the keywords. *)
Theorem collect_leads_first_pages fuel center radius keywords api_key filters s rows :
  (collect_leads fuel center radius keywords api_key filters s).1.1 = Ok rows →
  sublist ((λ kw, url_nearby center radius kw api_key None) <$> keywords)
          (search_urls (collect_leads fuel center radius keywords api_key filters s).2).
Proof.
  pose proof (keyword_loop_first_pages fuel center radius keywords api_key (default ∅ filters)
                (Acc [] ∅) s) as Hk.
  unfold collect_leads, bind.
  destruct (keyword_loop _ _ _ _ _ _ _ _) as [[[a1|e|] s1] t1]; cbn in *; try done.
  intros _. rewrite app_nil_r. by eapply Hk.
Qed.

Lemma pages_paced_app first prev t1 t2 :
  pages_paced first prev (t1 ++ t2)
  ↔ pages_paced first prev t1 ∧ pages_paced first (last_before prev t1) t2.
Proof.
  revert prev. induction t1 as [|e t1 IH]; intros prev; cbn [app pages_paced].
  - unfold last_before. cbn. naive_solver.
  - rewrite IH. unfold last_before. destruct t1 as [|e' t1]; cbn; [naive_solver|].
    rewrite !last_cons. destruct (last t1); naive_solver.
Qed.

Lemma pages_paced_quiet first prev t : search_urls t = [] → pages_paced first prev t.
Proof.
  revert prev. induction t as [|e t IH]; intros prev Ht; [done|].
  destruct e; cbn in *; try done; split; try done; by apply IH.
Qed.

Lemma page_loop_paced first fuel center radius kw api_key filters page a s prev :
  (truthy page = true → first (fmt page) ∨ prev = Some (Sleep (22 # 10))) →
  pages_paced first prev (page_loop fuel center radius kw api_key filters page a s).2.
Proof.
  revert page a s prev. induction fuel as [|fuel IH]; intros page a s prev Hp; cbn [page_loop].
  - by destruct (negb (truthy page)).
  - destruct (truthy page) eqn:Ht; [|done]. cbn [negb]. specialize (Hp eq_refl).
    unfold bind at 1, fetch_json_nearby at 1.
    destruct (http_nearby (fmt page) (net s)) as [[d|] w1]; [|done].
    destruct (_ && _); [done|]. destruct (bool_decide (status d = _)); [done|].
    unfold bind.
    pose proof (process_results_no_search api_key filters (results d) a (State w1 (rng s)))
      as Hquiet.
    destruct (process_results _ _ _ _ _) as [[[a1|e|] s1] t1]; cbn [snd] in *.
    + destruct (truthy (next_page_token d)) eqn:Htok.
      * unfold sleep.
        specialize (IH (Some (url_nearby center radius kw api_key (next_page_token d))) a1 s1
                      (Some (Sleep (22 # 10))) (λ _, or_intror eq_refl)).
        destruct (page_loop fuel _ _ _ _ _ _ a1 s1) as [[r3 s3] t3]. cbn [snd] in *.
        change ([GetNearby (fmt page) (Some d)] ++ t1 ++ [Sleep (22 # 10)] ++ t3)
          with (GetNearby (fmt page) (Some d) :: (t1 ++ Sleep (22 # 10) :: t3)).
        cbn [pages_paced]. split; [done|]. apply pages_paced_app.
        split; [by apply pages_paced_quiet|]. done.
      * specialize (IH None a1 s1 None). destruct fuel; cbn [page_loop negb truthy ret snd].
        all: rewrite app_nil_r; split; [done | by apply pages_paced_quiet].
    + split; [done | by apply pages_paced_quiet].
    + split; [done | by apply pages_paced_quiet].
Qed.

Lemma keyword_loop_paced_pages first fuel center radius keywords api_key filters a s prev :
  (∀ kw, kw ∈ keywords → first (url_nearby center radius kw api_key None)) →
  pages_paced first prev (keyword_loop fuel center radius keywords api_key filters a s).2.
Proof.
  revert a s prev. induction keywords as [|kw kws IH]; intros a s prev Hf; [done|].
  cbn [keyword_loop]. unfold bind.
  pose proof (page_loop_paced first fuel center radius kw api_key filters
                (Some (url_nearby center radius kw api_key None)) a s prev) as Hpage.
  destruct (page_loop _ _ _ _ _ _ _ a s) as [[[a1|e|] s1] t1]; cbn [snd] in *.
  - specialize (IH a1 s1 (last_before prev t1)).
    destruct (keyword_loop _ _ _ _ _ _ a1 s1) as [[r2 s2] t2]. cbn [snd] in *.
    apply pages_paced_app. split.
    + apply Hpage. intros _. left. apply Hf. set_solver.
    + apply IH. intros kw' Hkw. apply Hf. set_solver.
  - apply Hpage. intros _. left. apply Hf. set_solver.
  - apply Hpage. intros _. left. apply Hf. set_solver.
Qed.

Lemma pages_paced_split first prev t t1 url body t2 :
  pages_paced first prev t → t = t1 ++ GetNearby url body :: t2 →
  first url ∨ last_before prev t1 = Some (Sleep (22 # 10)).
Proof.
  intros Hp ->. apply pages_paced_app in Hp as [_ Hp]. cbn in Hp. tauto.
Qed.

(** X10.  Every nearby-search request of a run is the first page of one of
    the keywords or comes immediately after the delay of 2.2 seconds. *)
Theorem collect_leads_paces_pages fuel center radius keywords api_key filters s :
  ∀ t1 url body t2,
    (collect_leads fuel center radius keywords api_key filters s).2
    = t1 ++ GetNearby url body :: t2 →
    (∃ kw, kw ∈ keywords ∧ url = url_nearby center radius kw api_key None)
    ∨ last t1 = Some (Sleep (22 # 10)).
Proof.
  intros t1 url body t2 Ht.
  pose proof (keyword_loop_paced_pages
                (λ u, ∃ kw, kw ∈ keywords ∧ u = url_nearby center radius kw api_key None)
                fuel center radius keywords api_key (default ∅ filters) (Acc [] ∅) s None)
    as Hp.
  unfold collect_leads, bind in Ht.
  assert ((keyword_loop fuel center radius keywords api_key (default ∅ filters)
             (Acc [] ∅) s).2 = t1 ++ GetNearby url body :: t2) as Hk.
  { destruct (keyword_loop _ _ _ _ _ _ _ _) as [[[a1|e|] s1] t1']; cbn in *;
      rewrite ?app_nil_r in Ht; done. }
  destruct (pages_paced_split _ _ _ _ _ _ _ (Hp ltac:(naive_solver)) Hk) as [?|Hl]; [by left|].
  right. unfold last_before in Hl. by destruct (last t1).
Qed.
End Pages.

Section Resolve.
Context {W G : Type} `{!Runtime W G}.
Implicit Types (s : state W G) (a : acc) (t : list event).

Lemma contains_app c (x y : string) :
  Str.contains c (x +:+ y) = Str.contains c x || Str.contains c y.
Proof.
  induction x as [|d x IH]; cbn [String.append Str.contains]; [done|].
  change (String d x +:+ y) with (String d (x +:+ y)). cbn [Str.contains].
  case_decide; [done|apply IH].
Qed.

(** X11.  What [resolve_center] returns always contains a comma, so resolving
    it again returns it unchanged without any request. *)
Theorem resolve_center_idempotent location key s center :
  (resolve_center location key s).1.1 = Ok center →
  ∀ s', resolve_center center key s' = (Ok center, s', []).
Proof.
  intros Hr s'.
  assert (Str.contains ","%char center = true) as Hc.
  { revert Hr. unfold resolve_center.
    destruct (Str.contains ","%char location) eqn:Hl; cbn [negb].
    - by intros [= <-].
    - unfold geocode_location.
      destruct (http_geocode location key (net s)) as [[data|] w]; [|done].
      destruct (_ || _); [done|]. destruct (geo_results data) as [|loc ?]; [done|].
      intros [= <-]. rewrite !contains_app. cbn. by rewrite orb_true_r. }
  unfold resolve_center. by rewrite Hc.
Qed.

End Resolve.

Section Fuel.
Context {W G : Type} `{!Runtime W G}.
Implicit Types (s : state W G) (a : acc) (t : list event).

Lemma page_loop_single_page fuel center radius kw api_key filters page a s :
  single_pages (W := W) (G := G) →
  (page_loop (S fuel) center radius kw api_key filters page a s).1.1 ≠ Diverged.
Proof.
  intros Hsingle. cbn [page_loop]. destruct (negb (truthy page)); [done|].
  unfold bind at 1, fetch_json_nearby at 1. specialize (Hsingle (fmt page) (net s)).
  destruct (http_nearby (fmt page) (net s)) as [[d|] w1]; [|done]. cbn [fst] in Hsingle.
  rewrite Hsingle.
  destruct (_ && _); [done|]. destruct (bool_decide (status d = _)); [done|].
  unfold bind.
  pose proof (process_results_not_diverged api_key filters (results d) a (State w1 (rng s))).
  destruct (process_results _ _ _ _ _) as [[[a1|e|] s1] t1]; [|done..].
  by destruct fuel.
Qed.

(** X13.  When no search page carries a next-page token, one iteration of the
    [while] loop for each keyword is enough: the run ends. *)
Theorem collect_leads_single_pages fuel center radius keywords api_key filters s :
  single_pages (W := W) (G := G) →
  (collect_leads (S fuel) center radius keywords api_key filters s).1.1 ≠ Diverged.
Proof.
  intros Hsingle. unfold collect_leads.
  assert (∀ a s0, (keyword_loop (S fuel) center radius keywords api_key (default ∅ filters)
                     a s0).1.1 ≠ Diverged) as Hk.
  { induction keywords as [|kw kws IH]; intros a s0; [done|].
    cbn [keyword_loop]. unfold bind.
    pose proof (page_loop_single_page fuel center radius kw api_key (default ∅ filters)
                  (Some (url_nearby center radius kw api_key None)) a s0 Hsingle) as Hp.
    destruct (page_loop _ _ _ _ _ _ _ a s0) as [[[a1|e|] s1] t1]; [|done..].
    specialize (IH a1 s1). by destruct (keyword_loop _ _ _ _ _ _ a1 s1) as [[? ?] ?]. }
  unfold bind. specialize (Hk (Acc [] ∅) s).
  by destruct (keyword_loop _ _ _ _ _ _ _ s) as [[[a1|e|] s1] t1].
Qed.
End Fuel.

(** ** [main.py] *)

Module BotFacts.
Import Bot.

Lemma round_half_even_comp x y : (x == y)%Q → round_half_even x = round_half_even y.
Proof.
  intros Hxy. unfold round_half_even. rewrite (Qfloor_comp _ _ Hxy).
  assert ((x - inject_Z (Qfloor y) ?= 1 # 2) = (y - inject_Z (Qfloor y) ?= 1 # 2))%Q as ->;
    [|done].
  apply Qcompare_comp; [by rewrite Hxy | done].
Qed.

Lemma round_half_even_tenths z :
  (z mod 10 ≠ 5)%Z → round_half_even (z # 10) = ((z + 5) / 10)%Z.
Proof.
  intros Hz. unfold round_half_even.
  assert (Qfloor (z # 10) = (z / 10)%Z) as -> by done.
  unfold Qcompare. cbn.
  change (Z.pos (10 * 1)) with 10%Z.
  pose proof (Z.div_mod z 10 ltac:(done)) as Hdm.
  pose proof (Z.mod_pos_bound z 10 ltac:(done)) as Hb.
  pose proof (Z.div_mod (z + 5) 10 ltac:(done)) as Hdm'.
  pose proof (Z.mod_pos_bound (z + 5) 10 ltac:(done)) as Hb'.
  destruct (Z.compare_spec ((z * 1 + - (z / 10) * 10) * 2) (1 * 10)) as [H|H|H];
    [exfalso; lia | lia | lia].
Qed.

Lemma calculate_price_cents data :
  let n := Z.of_nat (length (default [] (ud_keywords data))) in
  let c := if Str.contains ","%char (default "" (ud_location data)) then 0%Z else 1%Z in
  (calculate_price data == inject_Z (cents n c) / 100)%Q.
Proof.
  intros n c. unfold calculate_price. fold n.
  set (price := (_ * 2)%Q).
  assert (price * 100 == (2028 * n + 200 + 10 * c) # 10)%Q as Hp.
  { subst price c. destruct (Str.contains _ _); cbn [negb];
      unfold PRICE_GEOCODING_PER_1000, PRICE_NEARBY_SEARCH_PER_1000,
        PRICE_PLACE_DETAILS_PER_1000, ESTIMATED_PAGES_PER_KEYWORD,
        ESTIMATED_PLACES_PER_PAGE, ESTIMATED_AWS_COST_PER_JOB;
      unfold Qeq, Qdiv; cbn; lia. }
  unfold round2. rewrite (round_half_even_comp _ _ Hp).
  rewrite round_half_even_tenths; last first.
  { pose proof (Z.div_mod (2028 * n + 200 + 10 * c) 10 ltac:(done)). lia. }
  unfold py_max, cents.
  set (r := ((2028 * n + 200 + 10 * c + 5) / 10)%Z).
  destruct (Qle_bool (1 # 2) (inject_Z r / 100)) eqn:Hle.
  - apply Qle_bool_iff in Hle. rewrite Z.max_r; [done|].
    unfold Qle, Qdiv in Hle. cbn in Hle. lia.
  - assert (¬ (1 # 2 <= inject_Z r / 100)%Q) as Hn
      by (rewrite <- Qle_bool_iff; by rewrite Hle).
    rewrite Z.max_l; [done|]. unfold Qle, Qdiv in Hn. cbn in Hn. lia.
Qed.

Lemma times_100 x z : (x == inject_Z z / 100)%Q → (x * 100 == inject_Z z)%Q.
Proof. intros ->. field. Qed.

Lemma round_half_even_int z : round_half_even (inject_Z z) = z.
Proof.
  unfold round_half_even. rewrite Qfloor_Z.
  assert ((inject_Z z - inject_Z z ?= 1 # 2) = Lt)%Q as ->; [|done].
  apply Qlt_alt. assert (inject_Z z - inject_Z z == 0)%Q as -> by ring. done.
Qed.

Lemma cents_lt n m c c' :
  (0 ≤ n < m)%Z → (0 ≤ c ≤ 1)%Z → (0 ≤ c' ≤ 1)%Z → (cents n c < cents m c')%Z.
Proof. unfold cents. Z.div_mod_to_equations. lia. Qed.

Lemma inject_cents_lt a b : (a < b)%Z → (inject_Z a / 100 < inject_Z b / 100)%Q.
Proof. intros. unfold Qlt, Qdiv. cbn. lia. Qed.

End BotFacts.

Section Price.
Import Bot.

(** X14.  The price is never below 0.50, and it is 0.50 exactly when there
    is no keyword. *)
Theorem calculate_price_floor data :
  (1 # 2 <= calculate_price data)%Q
  ∧ ((calculate_price data == 1 # 2)%Q ↔ default [] (ud_keywords data) = []).
Proof.
  rewrite (BotFacts.calculate_price_cents data). cbn zeta.
  set (n := Z.of_nat _). set (c := if Str.contains _ _ then _ else _).
  assert (0 ≤ n)%Z by lia. assert (0 ≤ c ≤ 1)%Z by (subst c; destruct (Str.contains _ _); lia).
  split.
  - unfold Qle, Qdiv, cents. cbn. lia.
  - assert (n = 0%Z ↔ default [] (ud_keywords data) = []) as <-.
    { subst n. destruct (default [] (ud_keywords data)); cbn; split; (done || lia). }
    unfold Qeq, Qdiv, cents. cbn. Z.div_mod_to_equations. lia.
Qed.

(** X15.  A request with more keywords costs strictly more, whatever the two
    locations. *)
Theorem calculate_price_more_keywords data data' :
  (length (default [] (ud_keywords data)) < length (default [] (ud_keywords data')))%nat →
  (calculate_price data < calculate_price data')%Q.
Proof.
  intros Hlen.
  rewrite (BotFacts.calculate_price_cents data), (BotFacts.calculate_price_cents data').
  cbn zeta. apply BotFacts.inject_cents_lt, BotFacts.cents_lt; [lia| |];
    destruct (Str.contains _ _); lia.
Qed.

(** X16.  With the same keywords, one at least, the fee shown for a
    location that has to be geocoded is one cent above the fee shown for
    coordinates: the two prices, written with two decimals as the messages
    of lines 307 and 356 write them, differ by 0.01. *)
Theorem calculate_price_geocoding data data' :
  ud_keywords data = ud_keywords data' →
  default [] (ud_keywords data) ≠ [] →
  Str.contains ","%char (default "" (ud_location data)) = false →
  Str.contains ","%char (default "" (ud_location data')) = true →
  cents_shown (calculate_price data) = (cents_shown (calculate_price data') + 1)%Z.
Proof.
  intros Hk Hne Hc Hc'. unfold cents_shown.
  rewrite (BotFacts.round_half_even_comp _ _
             (BotFacts.times_100 _ _ (BotFacts.calculate_price_cents data))),
          (BotFacts.round_half_even_comp _ _
             (BotFacts.times_100 _ _ (BotFacts.calculate_price_cents data'))).
  cbn zeta. rewrite !BotFacts.round_half_even_int, Hc, Hc', <- Hk.
  set (n := Z.of_nat _). assert (1 ≤ n)%Z.
  { subst n. destruct (default [] (ud_keywords data)); [done|]. cbn. lia. }
  unfold cents. Z.div_mod_to_equations. lia.
Qed.

End Price.

(** ** [str.split] and [str.join] *)

Module TextFacts.
Import Text.

Lemma split_nonempty sep s : split sep s ≠ [].
Proof. destruct s as [|c s]; cbn [split]; [done|]. case_decide; [done|]. by destruct (split sep s). Qed.

Lemma split_cons sep c s :
  c ≠ sep → split sep (String c s) = match split sep s with
                                     | piece :: pieces => String c piece :: pieces
                                     | [] => [String c ""]
                                     end.
Proof. intros. cbn [split]. by case_decide. Qed.

Lemma split_sep sep s : split sep (String sep s) = "" :: split sep s.
Proof. cbn [split]. by case_decide. Qed.

(** a piece that does not hold the separator is split off as it is *)
Lemma split_piece sep a b :
  Str.contains sep a = false →
  split sep (a +:+ String sep b) = a :: split sep b.
Proof.
  induction a as [|c a IH]; intros Ha.
  - apply split_sep.
  - cbn [Str.contains] in Ha. case_decide as Hc; [done|].
    change (String c a +:+ String sep b) with (String c (a +:+ String sep b)).
    rewrite split_cons by done. by rewrite IH.
Qed.

(** joining the pieces with the separator gives the string back *)
Lemma join_split sep s : Str.join (String sep "") (split sep s) = s.
Proof.
  induction s as [|c s IH]; [done|]. cbn [split]. case_decide as Hc.
  - subst c. pose proof (split_nonempty sep s).
    destruct (split sep s) as [|p ps] eqn:Hs; [done|].
    cbn [Str.join]. cbn [Str.join] in IH. by rewrite IH.
  - pose proof (split_nonempty sep s).
    destruct (split sep s) as [|p ps] eqn:Hs; [done|].
    destruct ps as [|q ps]; cbn [Str.join] in *; by rewrite <- IH.
Qed.

End TextFacts.

(** ** The handlers of the conversation *)

Module ConversationFacts.
Import Bot.

Section Phases.
Context {texts : Texts}.

Lemma split_set_filter rest :
  Text.split "_"%char ("set_filter_" +:+ rest) = "set" :: "filter" :: Text.split "_"%char rest.
Proof.
  change ("set_filter_" +:+ rest) with ("set" +:+ String "_" ("filter" +:+ String "_" rest)).
  rewrite TextFacts.split_piece by done. by rewrite TextFacts.split_piece.
Qed.

Lemma phase_handle u d : phase d → phase (handle u d).
Proof.
  intros Hd. destruct u as [i|text i| |q|]; cbn [handle]; [| | | |done].
  - left. cbn. auto.
  - unfold handle_message.
    destruct Hd as [([Hs|Hs] & Hl & Hr & Hk)|[(Hs & Hl & Hr & Hk)|[(Hs & Hl & Hr & Hk)|(Hs & Hy)]]].
    + rewrite Hs. cbn. left. auto.
    + rewrite Hs. cbn. right; left. cbn. eauto.
    + rewrite Hs. cbn. destruct (isdigit (strip text)) eqn:Hdig; cbn [negb];
        [|cbn; right; left; auto].
      destruct (int (strip text)) as [radius|] eqn:Hint; cbn; [|right; left; auto].
      right; right; left. cbn. split; [done|]. split; [done|]. split; [|eauto].
      exists radius. split; [done|]. by eapply int_of_digits.
    + rewrite Hs. cbn. right; right; left. cbn. eauto.
    + rewrite Hs. cbn. right; right; right. auto.
  - unfold handle_keywords_done.
    destruct (default [] (ud_keywords d)) as [|k ks] eqn:Hks; [done|]. cbn [fst].
    right; right; right. split; [done|].
    assert (ud_keywords d = Some (k :: ks)) as Hk by (destruct (ud_keywords d); naive_solver).
    destruct Hd as [(_ & _ & _ & Hn)|[(_ & _ & _ & Hn)|[(_ & [l Hl] & (r & Hr & Hr0) & _)|(_ & Hy)]]];
      [congruence|congruence| |].
    + exists l, r, (k :: ks), no_filters. cbn. done.
    + destruct Hy as (l & r & ks' & f & Hl & Hr & Hr0 & Hk' & Hne & Hf).
      exists l, r, ks', no_filters. cbn. done.
  - unfold handle_set_filter. destruct (_ !! 2%nat) as [ty|]; [|done]. cbn [from_option fst].
    destruct Hd as [H1|[H2|[H3|(Hs & Hy)]]]; [by left|by right; left|by right; right; left|].
    right; right; right. split; [done|].
    destruct Hy as (l & r & ks' & f & Hl & Hr & Hr0 & Hk' & Hne & Hf).
    exists l, r, ks'. eexists. cbn. done.
Qed.

Lemma phase_conversation us : phase (conversation us).
Proof.
  unfold conversation. induction us as [|u us IH] using rev_ind.
  - left. cbn. auto.
  - rewrite foldl_app. cbn [foldl]. by apply phase_handle.
Qed.

End Phases.

End ConversationFacts.

Section Conversation.
Import Bot.
Context {texts : Texts}.

Lemma handle_set_filter_eq ty v data :
  Str.contains "_"%char ty = false →
  handle_set_filter ("set_filter_" +:+ ty +:+ "_" +:+ v) data
  = let data' :=
      {| ud_step := ud_step data; ud_location := ud_location data;
         ud_radius := ud_radius data; ud_keywords := ud_keywords data;
         ud_filters := Some (<[ ty := v ]> (default ∅ (ud_filters data)));
         ud_bot_msg_id := ud_bot_msg_id data |} in
    Some (data', show_filter_menu data').
Proof.
  intros Hty. unfold handle_set_filter.
  rewrite ConversationFacts.split_set_filter.
  change (ty +:+ "_" +:+ v) with (ty +:+ String "_" v).
  rewrite TextFacts.split_piece by done. cbn [lookup list_lookup drop].
  rewrite drop_0. by rewrite (TextFacts.join_split "_"%char v).
Qed.

(** X17.  The callback data of a filter button, [set_filter_<type>_<value>]
    with a type that holds no underscore, stores the value, underscores
    included, under the type and leaves the rest of [user_data] as it is. *)
Theorem handle_set_filter_stores ty v data :
  Str.contains "_"%char ty = false →
  ∃ shown,
    handle_set_filter ("set_filter_" +:+ ty +:+ "_" +:+ v) data
    = Some ({| ud_step := ud_step data; ud_location := ud_location data;
               ud_radius := ud_radius data; ud_keywords := ud_keywords data;
               ud_filters := Some (<[ ty := v ]> (default ∅ (ud_filters data)));
               ud_bot_msg_id := ud_bot_msg_id data |}, shown).
Proof. intros Hty. rewrite handle_set_filter_eq by done. eauto. Qed.


(** X19.  A filter button pressed after [/start] stores its filter and then
    raises [KeyError('location')]. *)
Theorem handle_set_filter_after_start msg_id data ty v :
  Str.contains "_"%char ty = false →
  handle_set_filter ("set_filter_" +:+ ty +:+ "_" +:+ v) (start msg_id data)
  = Some ({| ud_step := Some STEP_LOCATION; ud_location := None; ud_radius := None;
             ud_keywords := None; ud_filters := Some {[ ty := v ]};
             ud_bot_msg_id := Some msg_id |}, inl (KeyError "location")).
Proof.
  intros Hty. rewrite handle_set_filter_eq by done. cbn.
  by rewrite insert_empty.
Qed.


(** X21.  In the filters step the price is 2.23 at least. *)
Theorem conversation_price us :
  ud_step (conversation us) = Some STEP_FILTERS →
  (223 # 100 <= calculate_price (conversation us))%Q.
Proof.
  intros Hs.
  destruct (ConversationFacts.phase_conversation us)
    as [([H|H] & _)|[(H & _)|[(H & _)|(_ & Hy)]]]; [by rewrite H in Hs..|].
  destruct Hy as (l & r & ks & f & Hl & Hr & Hr0 & Hk & Hne & Hf).
  rewrite (BotFacts.calculate_price_cents (conversation us)). cbn zeta. rewrite Hk.
  cbn [default from_option id].
  set (c := if Str.contains _ _ then _ else _).
  assert (0 ≤ c ≤ 1)%Z by (subst c; destruct (Str.contains _ _); lia).
  assert (1 ≤ Z.of_nat (length ks))%Z by (destruct ks; [done|cbn; lia]).
  unfold Qle, Qdiv, cents. cbn. Z.div_mod_to_equations. lia.
Qed.

Lemma foldl_keywords (kws : list (string * Z)) d ks0 :
  ud_step d = Some STEP_KEYWORDS → ud_keywords d = Some ks0 →
  foldl (λ d u, handle u d) d ((λ k, TextMessage k.1 k.2) <$> kws)
  = {| ud_step := ud_step d; ud_location := ud_location d; ud_radius := ud_radius d;
       ud_keywords := Some (ks0 ++ (strip <$> kws.*1));
       ud_filters := ud_filters d; ud_bot_msg_id := ud_bot_msg_id d |}.
Proof.
  revert d ks0. induction kws as [|[k i] kws IH]; intros d ks0 Hs Hk.
  - cbn. rewrite app_nil_r, <- Hk. by destruct d.
  - cbn [fmap list_fmap foldl handle fst snd].
    assert (handle_message k i d
            = Some {| ud_step := ud_step d; ud_location := ud_location d;
                      ud_radius := ud_radius d;
                      ud_keywords := Some (ks0 ++ [strip k]);
                      ud_filters := ud_filters d; ud_bot_msg_id := ud_bot_msg_id d |}) as ->.
    { unfold handle_message. rewrite Hs, Hk. done. }
    cbn [default from_option id].
    rewrite (IH _ (ks0 ++ [strip k])) by done.
    cbn. by rewrite <- app_assoc.
Qed.

(** X22.  [/start], a location, a radius for which [isdigit] holds and that
    [int] reads, keywords and Done lead to the filters step with the stripped
    texts stored, the keywords in the order they were sent, and no filter
    set; the menu shows them. *)
Theorem conversation_happy_path i0 loc i1 rad i2 radius (kws : list (string * Z)) :
  isdigit (strip rad) = true →
  int (strip rad) = Some radius →
  kws ≠ [] →
  let data :=
    conversation (CmdStart i0 :: TextMessage loc i1 :: TextMessage rad i2
                  :: ((λ k, TextMessage k.1 k.2) <$> kws) ++ [KeywordsDone]) in
  data = {| ud_step := Some STEP_FILTERS; ud_location := Some (strip loc);
            ud_radius := Some radius;
            ud_keywords := Some (strip <$> kws.*1);
            ud_filters := Some no_filters; ud_bot_msg_id := Some i2 |}
  ∧ show_filter_menu data
    = inr (Menu (strip loc) radius
                (Str.join ", " (strip <$> kws.*1)) "No Filter" "No Filter" "No Filter").
Proof.
  intros Hdig Hint Hne data.
  assert (data = {| ud_step := Some STEP_FILTERS; ud_location := Some (strip loc);
            ud_radius := Some radius;
            ud_keywords := Some (strip <$> kws.*1);
            ud_filters := Some no_filters; ud_bot_msg_id := Some i2 |}) as ->; [|done].
  subst data. unfold conversation.
  cbn [foldl handle]. rewrite foldl_app.
  assert (default (start i0 no_data) (handle_message loc i1 (start i0 no_data))
          = {| ud_step := Some STEP_RADIUS; ud_location := Some (strip loc);
               ud_radius := None; ud_keywords := None; ud_filters := None;
               ud_bot_msg_id := Some i1 |}) as -> by done.
  assert (∀ d, ud_step d = Some STEP_RADIUS →
            default d (handle_message rad i2 d)
            = {| ud_step := Some STEP_KEYWORDS; ud_location := ud_location d;
                 ud_radius := Some radius; ud_keywords := Some [];
                 ud_filters := ud_filters d; ud_bot_msg_id := Some i2 |}) as Hrad.
  { intros d Hs. unfold handle_message. rewrite Hs. cbn. by rewrite Hdig, Hint. }
  rewrite Hrad by done.
  rewrite (foldl_keywords kws _ []) by done.
  cbn [foldl handle ud_step ud_location ud_radius ud_keywords ud_filters ud_bot_msg_id app].
  unfold handle_keywords_done. cbn [ud_keywords default from_option id].
  destruct kws as [|[k i] kws]; [done|]. done.
Qed.

End Conversation.

(** ** The job *)

Section JobFacts.
Context {W G : Type} `{!Runtime W G}.
Implicit Types (s : state W G) (a : acc).

Lemma geocoded_app t1 t2 : geocoded (t1 ++ t2) = geocoded t1 ++ geocoded t2.
Proof. apply omap_app. Qed.

Lemma geocoded_html th : Forall is_html th → geocoded th = [].
Proof. induction 1 as [|[] th Hx Hth IH]; by cbn in *. Qed.

Lemma process_place_geocoded api_key filters p a s :
  geocoded (process_place api_key filters p a s).2 = [].
Proof.
  destruct (process_place_run api_key filters p a s); cbn [snd]; try done.
  - change (GetDetails ?p ?u ?b :: ?t) with ([GetDetails p u b] ++ t).
    rewrite geocoded_app, (geocoded_html th) by done. done.
  - change (GetDetails ?p ?u ?b :: ?t) with ([GetDetails p u b] ++ t).
    rewrite geocoded_app, (geocoded_html th) by done. done.
  - change (GetDetails ?p ?u ?b :: ?t) with ([GetDetails p u b] ++ t).
    rewrite !geocoded_app, (geocoded_html th) by done. done.
Qed.

Lemma keyword_loop_geocoded fuel center radius keywords api_key filters a s :
  geocoded (keyword_loop fuel center radius keywords api_key filters a s).2 = [].
Proof.
  apply (keyword_loop_inv api_key filters (λ _ out, geocoded out.2 = [])); try done.
  - intros _ a1 s1 t1 r2 s2 t2 H1 H2. cbn [snd] in *. by rewrite geocoded_app, H1, H2.
  - intros p a0 s0. apply process_place_geocoded.
Qed.

Lemma collect_leads_geocoded fuel center radius keywords api_key filters s :
  geocoded (collect_leads fuel center radius keywords api_key filters s).2 = [].
Proof.
  unfold collect_leads, bind.
  pose proof (keyword_loop_geocoded fuel center radius keywords api_key (default ∅ filters)
                (Acc [] ∅) s) as Hk.
  destruct (keyword_loop _ _ _ _ _ _ _ _) as [[[a1|e|] s1] t1]; cbn [snd ret] in *;
    [by rewrite app_nil_r|done..].
Qed.

(** X23.  A job geocodes its location when it holds no comma, once, and
    nothing else; a location with a comma is not geocoded. *)
Theorem job_geocodes_location fuel location radius keywords filters api_key s :
  geocoded (blocking_scraping_and_file_io fuel location radius keywords filters api_key s).2
  = if Str.contains ","%char location then [] else [location].
Proof.
  unfold blocking_scraping_and_file_io, resolve_center.
  assert (∀ center s1,
    geocoded ((leads <- collect_leads fuel center radius keywords api_key (Some filters) ;;
               match leads with [] => ret None | _ :: _ => ret (Some leads) end) s1).2 = [])
    as Hrest.
  { intros center s1. unfold bind at 1.
    pose proof (collect_leads_geocoded fuel center radius keywords api_key (Some filters) s1)
      as Hc.
    destruct (collect_leads _ _ _ _ _ _ _) as [[[rows|e|] s2] t2]; cbn [snd] in *; [|done..].
    destruct rows; cbn [ret]; by rewrite app_nil_r. }
  destruct (Str.contains ","%char location); cbn [negb].
  - unfold bind at 1. cbn [ret]. specialize (Hrest location s).
    destruct (bind _ _ s) as [[r2 s2] t2]. done.
  - unfold bind at 1, geocode_location.
    destruct (http_geocode location api_key (net s)) as [[data|] w]; [|done].
    destruct (_ || _); [done|]. destruct (geo_results data) as [|loc ?]; [done|].
    match goal with |- context [bind ?m ?k ?st] =>
      specialize (Hrest (str (lat loc) +:+ "," +:+ str (lng loc)) st);
      destruct (bind m k st) as [[r2 s2] t2] end.
    cbn [snd] in *. change (geocoded ([GetGeocode location api_key (Some data)] ++ t2) = [location]).
    by rewrite geocoded_app, Hrest.
Qed.

End JobFacts.

(** ** Concrete runs *)



(** C6.  A page that writes one address in two letter cases: the set holds
    both spellings, lowering them comes after, and the result repeats the
    address. *)
Example scrape_site_emails_repeats_address :
  (scrape_site_emails (Runtime0 := Tables.runtime Worlds.sites) "https://shop.example"
     Tables.start).1.1
  = Ok "sales@shop.example;sales@shop.example".
Proof. vm_compute. reflexivity. Qed.

Lemma collect_leads_no_duplicate_place_witness :
  let out := Worlds.run Worlds.town ["bakery"; "cafe"] None in
  detail_ids out.2 = [Some "p1"; Some "p2"; Some "p3"]
  ∧ ∃ srcs, NoDup srcs ∧ sublist srcs (detail_ids out.2)
            ∧ Forall2 (built_from (Runtime0 := Tables.runtime Worlds.town) out.2) srcs
                [make_lead (Runtime0 := Tables.runtime Worlds.town) Worlds.alpha
                   "https://example.com" "sales@example.com" (PyFloat (9 # 2));
                 make_lead (Runtime0 := Tables.runtime Worlds.town) Worlds.beta "" ""
                   (PyFloat 0)].
Proof.
  split; [vm_compute; reflexivity|].
  apply (proj1 (proj2 (collect_leads_no_duplicate_place (Runtime0 := Tables.runtime Worlds.town)
           3 "52.52,13.405" 500 ["bakery"; "cafe"] "K" None Tables.start))).
  vm_compute. reflexivity.
Defined.

Lemma all_no_filter_None : all_no_filter None.
Proof. intros key _. done. Qed.

(** C2.  The rating filter does not fail closed on a rating that is a
    NaN.  [json] reads the literal [NaN], [float] converts it, the comparison
    [place_rating < min_rating] of line 131 is false, and the place is
    returned under the filter ["3"], with the rating ["nan"], although its
    rating is not at least 3. *)
Example rating_filter_keeps_nan :
  (Worlds.run Journeys.nan_rating ["bakery"] (Some {[ "rating" := "3" ]})).1.1
  = Ok [Lead "Gamma" "" "" "" "" "nan"].
Proof. vm_compute. reflexivity. Qed.

(** A rating that is an integer too large for a [float] does not get the
    place skipped either: [float] raises [OverflowError], which line 133
    does not catch, and the run ends with it, where the run without a filter
    returns the place. *)
Example rating_filter_overflow :
  (Worlds.run Journeys.huge_rating ["bakery"] (Some {[ "rating" := "3" ]})).1.1
  = Raise OverflowError
  ∧ ∃ row, (Worlds.run Journeys.huge_rating ["bakery"] None).1.1 = Ok [row].
Proof. split; [|eexists]; vm_compute; reflexivity. Qed.

Lemma rating_filter_exact_witness :
  filters_skip (Runtime0 := Tables.runtime Worlds.town) {[ "rating" := "4" ]}
    "https://example.com" "" (PyFloat (9 # 2)) = inr false
  ∧ filters_skip (Runtime0 := Tables.runtime Worlds.town) {[ "rating" := "4" ]}
      "https://example.com" "" PyNaN = inr false
  ∧ filters_skip (Runtime0 := Tables.runtime Worlds.town) {[ "rating" := "4" ]}
      "https://example.com" "" (PyFloat 0) = inr true.
Proof.
  split; [|split].
  - apply (proj2 (proj1 (rating_filter_exact (Runtime0 := Tables.runtime Worlds.town)
             {[ "rating" := "4" ]} "https://example.com" "" (Some (PyFloat (9 # 2))) 4
             ltac:(lia) eq_refl eq_refl))).
    unfold Qle. simpl. lia.
  - apply (proj2 (proj1 (rating_filter_exact (Runtime0 := Tables.runtime Worlds.town)
             {[ "rating" := "4" ]} "https://example.com" "" (Some PyNaN) 4
             ltac:(lia) eq_refl eq_refl))).
    simpl. lia.
  - apply (proj2 (rating_filter_exact (Runtime0 := Tables.runtime Worlds.town)
             {[ "rating" := "4" ]} "https://example.com" "" None 4
             ltac:(lia) eq_refl eq_refl)).
    reflexivity.
Defined.


Lemma collect_leads_stops_at_error_witness :
  ([] : list event) = []
  ∧ (Worlds.run Worlds.offline ["bakery"] None).1.1
    = Raise (RequestException (Worlds.search "bakery")).
Proof.
  apply (collect_leads_stops_at_error (Runtime0 := Tables.runtime Worlds.offline)
           3 "52.52,13.405" 500 ["bakery"] "K" None Tables.start
           [] (GetNearby (Worlds.search "bakery") None) []).
  - vm_compute. reflexivity.
  - reflexivity.
Defined.

Lemma no_filter_superset_witness :
  let row := make_lead (Runtime0 := Tables.runtime Worlds.town) Worlds.alpha
               "https://example.com" "sales@example.com" (PyFloat (9 # 2)) in
  ∃ rows', (Worlds.run Worlds.town ["bakery"; "cafe"] None).1.1 = Ok rows'
           ∧ sublist [row] rows' ∧ [row] ⊆ rows'.
Proof.
  refine (proj1 (no_filter_superset (Runtime0 := Tables.runtime Worlds.town)
            3 "52.52,13.405" 500 ["bakery"; "cafe"] "K" (Some {[ "website" := "with" ]})
            None Tables.start all_no_filter_None) _ _).
  vm_compute. reflexivity.
Defined.



Lemma resolve_center_cases_witness :
  resolve_center (Runtime0 := Tables.runtime Worlds.town) "52.52,13.405" "K" Tables.start
  = (Ok "52.52,13.405", Tables.start, [])
  ∧ (resolve_center (Runtime0 := Tables.runtime Worlds.town) "Nowhere" "K" Tables.start).1.1
    = Raise (ValueError "Geocode failed: ZERO_RESULTS").
Proof.
  split.
  - apply (proj1 (resolve_center_cases (Runtime0 := Tables.runtime Worlds.town)
                    "52.52,13.405" "K" Tables.start)).
    vm_compute. reflexivity.
  - refine (proj2 (proj1 (proj2 (resolve_center_cases (Runtime0 := Tables.runtime Worlds.town)
                     "Nowhere" "K" Tables.start)) _)
              (Geocode (Some "ZERO_RESULTS") []) _ _).
    + vm_compute. reflexivity.
    + vm_compute. reflexivity.
    + right. reflexivity.
Defined.



Lemma findall_email_shaped_witness :
  Forall email_shaped (EmailPat.findall "Get in touch mailto:sales@example.com").
Proof.
  apply findall_email_shaped. unfold ascii_only.
  apply Forall_forall. intros c Hc. vm_compute in Hc.
  repeat (apply elem_of_cons in Hc as [->|Hc]; [vm_compute; lia|]).
  by apply not_elem_of_nil in Hc.
Defined.




Lemma collect_leads_presence_filters_witness :
  Forall (λ row, website row ≠ "")
    [make_lead (Runtime0 := Tables.runtime Worlds.town) Worlds.alpha
       "https://example.com" "sales@example.com" (PyFloat (9 # 2))].
Proof.
  refine (proj1 (collect_leads_presence_filters (Runtime0 := Tables.runtime Worlds.town)
            3 "52.52,13.405" 500 ["bakery"; "cafe"] "K" (Some {[ "website" := "with" ]})
            Tables.start _ _) _); vm_compute; reflexivity.
Defined.

Lemma collect_leads_row_count_witness :
  length [make_lead (Runtime0 := Tables.runtime Worlds.town) Worlds.alpha
            "https://example.com" "sales@example.com" (PyFloat (9 # 2));
          make_lead (Runtime0 := Tables.runtime Worlds.town) Worlds.beta "" "" (PyFloat 0)]
  = ok_details (Worlds.run Worlds.town ["bakery"; "cafe"] None).2.
Proof.
  refine (proj2 (collect_leads_row_count (Runtime0 := Tables.runtime Worlds.town)
            3 "52.52,13.405" 500 ["bakery"; "cafe"] "K" None Tables.start _ _)
            all_no_filter_None).
  vm_compute. reflexivity.
Defined.

Lemma collect_leads_first_pages_witness :
  sublist [Worlds.search "bakery"; Worlds.search "cafe"]
    (search_urls (Worlds.run Worlds.town ["bakery"; "cafe"] None).2).
Proof.
  refine (collect_leads_first_pages (Runtime0 := Tables.runtime Worlds.town)
            3 "52.52,13.405" 500 ["bakery"; "cafe"] "K" None Tables.start _ _).
  vm_compute. reflexivity.
Defined.

Lemma collect_leads_paces_pages_witness :
  (∃ kw, kw ∈ ["bakery"]
         ∧ Journeys.second_page
           = url_nearby (Runtime0 := Tables.runtime Journeys.metro) "52.5,13.4" 500 kw "K" None)
  ∨ last [GetNearby Journeys.first_page
            (Some (Nearby (Some "OK") None [Place (Some "p1")] (Some "T2")));
          GetDetails (Some "p1") (Worlds.lookup "p1") (Some (Details (Some "OK") (Some Worlds.alpha)));
          GetHtml "https://example.com" None; GetHtml "https://example.com/contact" None;
          Sleep (30 # 200); Sleep (22 # 10)]
    = Some (Sleep (22 # 10)).
Proof.
  refine (collect_leads_paces_pages (Runtime0 := Tables.runtime Journeys.metro)
            3 "52.5,13.4" 500 ["bakery"] "K" None Tables.start _ _
            (Some (Nearby (Some "OK") None [Place (Some "p2")] None))
            [GetDetails (Some "p2") (Worlds.lookup "p2")
               (Some (Details (Some "OK") (Some Worlds.beta)));
             Sleep (30 # 200)] _).
  vm_compute. reflexivity.
Defined.

Lemma resolve_center_idempotent_witness :
  resolve_center (Runtime0 := Tables.runtime Journeys.metro) "52.5,13.4" "K" Tables.start
  = (Ok "52.5,13.4", Tables.start, []).
Proof.
  refine (resolve_center_idempotent (Runtime0 := Tables.runtime Journeys.metro)
            "Berlin" "K" Tables.start "52.5,13.4" _ Tables.start).
  vm_compute. reflexivity.
Defined.

Lemma collect_leads_single_pages_witness :
  (collect_leads (Runtime0 := Tables.runtime Worlds.town) 1 "52.52,13.405" 500
     ["bakery"; "cafe"] "K" None Tables.start).1.1 ≠ Diverged.
Proof.
  apply (collect_leads_single_pages (Runtime0 := Tables.runtime Worlds.town)).
  intros url w. cbn [http_nearby Tables.runtime fst Tables.find Tables.nearby_of Worlds.town].
  repeat case_decide; reflexivity.
Defined.

Lemma calculate_price_more_keywords_witness :
  (Bot.calculate_price (Bot.UserData None (Some "Berlin") None (Some ["bakery"]) None None)
   < Bot.calculate_price
       (Bot.UserData None (Some "52.5,13.4") None (Some ["bakery"; "cafe"]) None None))%Q.
Proof. apply calculate_price_more_keywords. simpl. lia. Defined.

Lemma calculate_price_geocoding_witness :
  Bot.cents_shown
    (Bot.calculate_price (Bot.UserData None (Some "Berlin") None (Some ["bakery"]) None None))
  = (Bot.cents_shown
       (Bot.calculate_price
          (Bot.UserData None (Some "52.5,13.4") None (Some ["bakery"]) None None)) + 1)%Z.
Proof. apply calculate_price_geocoding; [reflexivity|discriminate|reflexivity|reflexivity]. Defined.

Lemma handle_set_filter_stores_witness :
  ∃ shown,
    Bot.handle_set_filter "set_filter_rating_no_filter" Bot.no_data
    = Some (Bot.UserData None None None None (Some {[ "rating" := "no_filter" ]}) None, shown).
Proof.
  destruct (handle_set_filter_stores "rating" "no_filter" Bot.no_data eq_refl)
    as [shown Hshown].
  exists shown. exact Hshown.
Defined.


Lemma handle_set_filter_after_start_witness :
  Bot.handle_set_filter "set_filter_rating_4"
    (Bot.start 9 (Bot.conversation (texts := ascii_texts) Journeys.chat))
  = Some (Bot.UserData (Some "location") None None None (Some {[ "rating" := "4" ]}) (Some 9%Z),
          inl (KeyError "location")).
Proof.
  apply (handle_set_filter_after_start 9
           (Bot.conversation (texts := ascii_texts) Journeys.chat) "rating" "4").
  reflexivity.
Defined.


Lemma conversation_price_witness :
  (223 # 100 <= Bot.calculate_price (Bot.conversation (texts := ascii_texts) Journeys.chat))%Q.
Proof. apply conversation_price. reflexivity. Defined.

Lemma conversation_happy_path_witness :
  Bot.show_filter_menu
    (Bot.conversation (texts := ascii_texts)
       [Bot.CmdStart 1; Bot.TextMessage " Berlin " 2; Bot.TextMessage "0500" 3;
        Bot.TextMessage "bakery" 4; Bot.TextMessage " cafe" 5; Bot.KeywordsDone])
  = inr (Bot.Menu "Berlin" 500 "bakery, cafe" "No Filter" "No Filter" "No Filter").
Proof.
  refine (proj2 (conversation_happy_path (texts := ascii_texts) 1 " Berlin " 2 "0500" 3 500
                   [("bakery", 4%Z); (" cafe", 5%Z)] _ _ _)).
  - reflexivity.
  - reflexivity.
  - discriminate.
Defined.
